(** * dropbox-sync: a shallow embedding of [sync.py]

    The program walks a local directory tree and uploads to a remote
    store the files that are new or changed.  This development embeds
    the functions of [sync.py] ([main], [list_directory], [download],
    [upload], [yesno], [dropbox_hash], [stopwatch]) as functions over an
    explicit trace of effects, and proves properties of them. *)

From Stdlib Require Import ZArith QArith Qround String Ascii List Lia Bool.
From stdpp Require Import base option list gmap strings pretty.
Import ListNotations.

Local Open Scope string_scope.
Local Open Scope list_scope.

(** ** Python string operations used by the program *)

Module PyStr.

(** [s.startswith(p)] *)
Fixpoint startswith (p s : string) : bool :=
  match p, s with
  | EmptyString, _ => true
  | String a p', String b s' => Ascii.eqb b a && startswith p' s'
  | String _ _, EmptyString => false
  end.

(** [s.endswith(p)]: some suffix of [s] is [p]. *)
Fixpoint endswith (p s : string) : bool :=
  String.eqb s p ||
  match s with
  | EmptyString => false
  | String _ t => endswith p t
  end.

(** [p in s] *)
Fixpoint contains (p s : string) : bool :=
  startswith p s ||
  match s with
  | EmptyString => false
  | String _ t => contains p t
  end.

(** [s.replace(a, b)] for single characters [a], [b]. *)
Fixpoint replace_char (a b : ascii) (s : string) : string :=
  match s with
  | EmptyString => EmptyString
  | String c t => String (if Ascii.eqb c a then b else c) (replace_char a b t)
  end.

Definition is_slash (c : ascii) : bool := Ascii.eqb c "/".

(** [s.replace('//', '/')]: the occurrences are found from the left and do
    not overlap. *)
Fixpoint replace_dslash (s : string) : string :=
  match s with
  | EmptyString => EmptyString
  | String c t =>
      match t with
      | EmptyString => String c EmptyString
      | String d t' =>
          if is_slash c && is_slash d
          then String "/" (replace_dslash t')
          else String c (replace_dslash t)
      end
  end.

(** [s.lstrip(c)] and [s.rstrip(c)] for a one-character set. *)
Fixpoint lstrip_char (c : ascii) (s : string) : string :=
  match s with
  | String d t => if Ascii.eqb d c then lstrip_char c t else s
  | EmptyString => EmptyString
  end.

Fixpoint rstrip_char (c : ascii) (s : string) : string :=
  match s with
  | EmptyString => EmptyString
  | String d t =>
      match rstrip_char c t with
      | EmptyString => if Ascii.eqb d c then EmptyString else String d EmptyString
      | t' => String d t'
      end
  end.

Definition strip_char (c : ascii) (s : string) : string :=
  rstrip_char c (lstrip_char c s).

(** Whitespace as [str.isspace] sees it on the ASCII range. *)
Definition isspace (c : ascii) : bool :=
  let n := nat_of_ascii c in
  ((9 <=? n) && (n <=? 13) || (28 <=? n) && (n <=? 32))%nat.

Fixpoint lstrip (s : string) : string :=
  match s with
  | String d t => if isspace d then lstrip t else s
  | EmptyString => EmptyString
  end.

Fixpoint rstrip (s : string) : string :=
  match s with
  | EmptyString => EmptyString
  | String d t =>
      match rstrip t with
      | EmptyString => if isspace d then EmptyString else String d EmptyString
      | t' => String d t'
      end
  end.

(** [s.strip()] *)
Definition strip (s : string) : string := rstrip (lstrip s).

Definition lower_char (c : ascii) : ascii :=
  let n := nat_of_ascii c in
  if ((65 <=? n) && (n <=? 90))%nat then ascii_of_nat (n + 32) else c.

(** [s.lower()] on the ASCII range. *)
Fixpoint lower (s : string) : string :=
  match s with
  | EmptyString => EmptyString
  | String c t => String (lower_char c) (lower t)
  end.

(** [s[n:]] *)
Fixpoint drop (n : nat) (s : string) : string :=
  match n, s with
  | O, _ => s
  | S n', String _ t => drop n' t
  | S _, EmptyString => EmptyString
  end.

End PyStr.

(** ** Remote paths *)

Module Paths.
Import PyStr.

(** [while '//' in path: path = path.replace('//', '/')].  Every pass
    over a path that contains ['//'] shortens it, so the length of the
    path bounds the number of passes. *)
Fixpoint collapse_loop (fuel : nat) (path : string) : string :=
  match fuel with
  | O => path
  | S fuel' =>
      if contains "//" path
      then collapse_loop fuel' (replace_dslash path)
      else path
  end.

Definition collapse (path : string) : string :=
  collapse_loop (String.length path) path.

(** Every run of ['/'] collapsed to a single ['/'], written as one pass
    that drops a ['/'] whenever the previous character was one. *)
Fixpoint squeeze_from (prev_slash : bool) (s : string) : string :=
  match s with
  | EmptyString => EmptyString
  | String c t =>
      if is_slash c
      then (if prev_slash then squeeze_from true t
            else String "/" (squeeze_from true t))
      else String c (squeeze_from false t)
  end.

Definition squeeze (s : string) : string := squeeze_from false s.

(** The last character of a string, if any. *)
Fixpoint last_char (s : string) : option ascii :=
  match s with
  | EmptyString => None
  | String c EmptyString => Some c
  | String _ t => last_char t
  end.

Section WithSep.

(** [os.path.sep] *)
Variable sep : ascii.

(** ['/%s/%s' % (directory, subdirectory.replace(os.path.sep, '/'))] *)
Definition raw_dir_path (directory subdirectory : string) : string :=
  "/" ++ directory ++ "/" ++ replace_char sep "/" subdirectory.

(** ['/%s/%s/%s' % (directory, subdirectory.replace(os.path.sep, '/'), name)] *)
Definition raw_file_path (directory subdirectory name : string) : string :=
  "/" ++ directory ++ "/" ++ replace_char sep "/" subdirectory ++ "/" ++ name.

(** The path computed at the head of [list_directory]. *)
Definition list_path (directory subdirectory : string) : string :=
  rstrip_char "/" (collapse (raw_dir_path directory subdirectory)).

(** The path computed at the head of [download]. *)
Definition download_path (directory subdirectory name : string) : string :=
  collapse (raw_file_path directory subdirectory name).

(** The path computed at the head of [upload]. *)
Definition upload_path (directory subdirectory name : string) : string :=
  collapse (raw_file_path directory subdirectory name).

(** [os.path.join(a, b)] for a relative, nonempty [b]. *)
Definition path_join (a b : string) : string :=
  match last_char a with
  | None => b
  | Some c => if Ascii.eqb c sep then a ++ b else a ++ String sep b
  end.

End WithSep.


End Paths.

(** ** Data model *)

Abbreviation byte := Byte.byte.

(** A local regular file: what [os.path.getmtime] returns for it (a float,
    taken as the rational it denotes) and its bytes; [os.path.getsize] is
    the number of bytes. *)
Record File := { f_mtime : Q; f_data : list byte }.

(** A local directory as [os.walk] lists it: the names of its files and
    the names of its subdirectories, in listing order. *)
#[warnings="-register-all"] Inductive Dir :=
| MkDir (files : list (string * File)) (dirs : list (string * Dir)).

Inductive FsNode :=
| FsFile (f : File)
| FsDir (d : Dir).

(** An entry of a remote listing.  A [datetime] holds whole seconds and is
    kept as the count of seconds since the epoch (UTC), which determines
    and is determined by its six fields. *)
Inductive Metadata :=
| FileMetadata (name : string) (size : Z) (client_modified : Z)
               (content_hash : string)
| DirectoryMetadata (name : string).

Definition md_name (md : Metadata) : string :=
  match md with
  | FileMetadata n _ _ _ => n
  | DirectoryMetadata n => n
  end.

(** [isinstance(md, dropbox.files.FileMetadata)] *)
Definition is_FileMetadata (md : Metadata) : bool :=
  match md with
  | FileMetadata _ _ _ _ => true
  | DirectoryMetadata _ => false
  end.

Inductive WriteMode := add | overwrite.

(** The exceptions the program raises, lets through or handles. *)
Inductive exn :=
| SystemExit (code : Z)
| AttributeError (obj attr : string)
| EOFError
| ApiError (err : string)
| HttpError (err : string).

(** The remote store as the program calls it: each call returns or
    raises, and what it answers depends on the arguments of the call
    only (the program lists a remote directory once, before it uploads
    into it). *)
Record Dropbox := {
  files_list_directory : string -> exn + list Metadata;
  files_upload : list byte -> string -> WriteMode -> Z -> exn + Metadata;
  files_download : string -> exn + Metadata * list byte
}.

(** What [parser.parse_args()] returns: one attribute per declared
    argument. *)
Record Namespace := {
  ns_source : string;
  ns_destination : string;
  ns_token : string;
  ns_yes : bool;
  ns_no : bool;
  ns_default : bool
}.

Inductive pyval :=
| PyStr (s : string)
| PyBool (b : bool).

(** The outcomes of section 3 of the specification, one per branch of the
    loop over files. *)
Inductive Decision :=
| AlreadySynced
| UploadNew
| UploadOverwrite
| SkipPruned
| FlagMismatchNoAction.

(** ** Effects *)

(** An argument of [print]. *)
Inductive obj :=
| OStr (s : string)
| OInt (z : Z)
| OTime (seconds : Z)
| OExn (e : exn).

Inductive event :=
| Print (args : list obj)
    (** a line on standard output *)
| Auto (message : string) (answer : bool)
    (** the line [message? [auto] ...] of [yesno] when a flag answers *)
| Input (prompt : string) (line : option string)
    (** [input(prompt)] and the line it read, [None] at end of input *)
| Stderr (message : string)
    (** the error line of the argument parser *)
| Debugger
    (** [pdb.set_trace()] *)
| Elapsed (message : string)
    (** the line printed when a [stopwatch] block is left *)
| GetMtime (fullname : string)
| GetSize (fullname : string)
| ReadFile (fullname : string)
| Connect (token : string)
    (** [dropbox.Dropbox(token)] *)
| RemoteList (path : string)
| RemoteUpload (data : list byte) (path : string) (mode : WriteMode)
               (client_modified : Z)
| RemoteDownload (path : string).

Inductive result (A : Type) :=
| Ok (a : A)
| Raise (e : exn).
Arguments Ok {A} a.
Arguments Raise {A} e.

(** A run of a piece of the program from a given standard input: the
    effects in order, how it ended, and the input lines left unread. *)
Record run (A : Type) := Run {
  trace : list event;
  outcome : result A;
  stdin_left : list string
}.
Arguments Run {A} trace outcome stdin_left.
Arguments trace {A} r.
Arguments outcome {A} r.
Arguments stdin_left {A} r.

Definition M (A : Type) : Type := list string -> run A.

Definition ret {A} (a : A) : M A := fun i => Run [] (Ok a) i.

Definition raise {A} (e : exn) : M A := fun i => Run [] (Raise e) i.

Definition emit (e : event) : M unit := fun i => Run [e] (Ok tt) i.

Definition bind {A B} (m : M A) (k : A -> M B) : M B :=
  fun i =>
    let r := m i in
    match outcome r with
    | Ok a =>
        let r' := k a (stdin_left r) in
        Run (trace r ++ trace r') (outcome r') (stdin_left r')
    | Raise e => Run (trace r) (Raise e) (stdin_left r)
    end.

Notation "x <- m ;; k" := (bind m (fun x => k))
  (at level 100, m at next level, right associativity).
Notation "m ;; k" := (bind m (fun _ => k))
  (at level 100, right associativity).

(** [try: m  finally: f] *)
Definition try_finally {A} (m : M A) (f : M unit) : M A :=
  fun i =>
    let r := m i in
    let r' := f (stdin_left r) in
    match outcome r' with
    | Ok _ => Run (trace r ++ trace r') (outcome r) (stdin_left r')
    | Raise e => Run (trace r ++ trace r') (Raise e) (stdin_left r')
    end.

Definition lift {A} (x : exn + A) : M A :=
  match x with
  | inl e => raise e
  | inr a => ret a
  end.

Definition print (args : list obj) : M unit := emit (Print args).

(** [with stopwatch(message): body] *)
Definition stopwatch {A} (message : string) (body : M A) : M A :=
  try_finally body (emit (Elapsed message)).

(** [for x in xs: body x] *)
Fixpoint for_each {A} (xs : list A) (body : A -> M unit) : M unit :=
  match xs with
  | [] => ret tt
  | x :: xs' => body x ;; for_each xs' body
  end.

Definition when (b : bool) (m : M unit) : M unit :=
  if b then m else ret tt.

(** ** The content hasher *)

Section Hasher.

(** SHA-256, from bytes to the 32 raw bytes of the digest. *)
Variable sha256 : list byte -> list byte.

Definition hex_digit (n : nat) : ascii :=
  match String.get n "0123456789abcdef" with
  | Some c => c
  | None => "0"%char
  end.

Definition hex_byte (b : byte) : string :=
  let n := Byte.to_nat b in
  String (hex_digit (n / 16)) (String (hex_digit (n mod 16)) EmptyString).

(** The hexadecimal encoding of raw bytes. *)
Fixpoint hex (bs : list byte) : string :=
  match bs with
  | [] => EmptyString
  | b :: bs' => hex_byte b ++ hex bs'
  end.

(** Modelled from the spec: the class [DropboxContentHasher] of the module
    [dropbox_content_hasher], which [sync.py] imports and which is not part
    of the sources.  Section 4.1 gives it one open block accumulator and
    the digests of the blocks completed so far; bytes are fed to the
    accumulator in order, a full block is closed when the next byte
    arrives, and the last open block is closed at the end. *)
Record DropboxContentHasher := {
  overall : list byte;  (** raw digests of the closed blocks, concatenated *)
  block : list byte     (** the bytes of the open block *)
}.

Definition hasher_new : DropboxContentHasher :=
  {| overall := []; block := [] |}.

Definition feed (block_size : nat) (h : DropboxContentHasher) (b : byte)
  : DropboxContentHasher :=
  if (length (block h) =? block_size)%nat
  then {| overall := overall h ++ sha256 (block h); block := [b] |}
  else {| overall := overall h; block := block h ++ [b] |}.

(** [hasher.update(new_data)] *)
Definition update (block_size : nat) (h : DropboxContentHasher)
    (new_data : list byte) : DropboxContentHasher :=
  fold_left (feed block_size) new_data h.

(** [hasher.hexdigest()] *)
Definition hexdigest (h : DropboxContentHasher) : string :=
  hex (sha256 (match block h with
               | [] => overall h
               | _ :: _ => overall h ++ sha256 (block h)
               end)).

(** The block size of section 4.1: 4 MiB. *)
Definition BLOCK_SIZE : nat := 4 * 1024 * 1024.

(** The content hash as section 4.1 words it: the stream cut into blocks
    of [block_size] bytes, the last one possibly shorter; the digest of
    each block; the digest of the concatenated digests, in hexadecimal. *)
Fixpoint blocks_upto (fuel : nat) (block_size : nat) (data : list byte)
  : list (list byte) :=
  match fuel, data with
  | S fuel', _ :: _ =>
      take block_size data :: blocks_upto fuel' block_size (drop block_size data)
  | _, _ => []
  end.

Definition blocks (block_size : nat) (data : list byte) : list (list byte) :=
  blocks_upto (length data) block_size data.

Definition content_hash_spec (block_size : nat) (data : list byte) : string :=
  hex (sha256 (concat (map sha256 (blocks block_size data)))).

(** The loop of [dropbox_hash] over an open file, [f] being the bytes not
    read yet: [chunk = f.read(1024)], leave on an empty chunk, else
    [hasher.update(chunk)].  [None] when [fuel] rounds did not reach the
    end of the file. *)
Fixpoint read_loop (block_size : nat) (fuel : nat)
    (hasher : DropboxContentHasher) (f : list byte)
  : option DropboxContentHasher :=
  match fuel with
  | O => None
  | S fuel' =>
      let chunk := take 1024 f in
      if (length chunk =? 0)%nat then Some hasher
      else read_loop block_size fuel' (update block_size hasher chunk)
                     (drop 1024 f)
  end.

(** [dropbox_hash] on the bytes of the file. *)
Definition dropbox_hash_bytes (block_size : nat) (data : list byte)
  : option string :=
  hexdigest <$> read_loop block_size (S (length data)) hasher_new data.

(** Feeding a hasher a sequence of chunks, as any reader would. *)
Definition feed_chunks (block_size : nat) (chunks : list (list byte))
  : DropboxContentHasher :=
  fold_left (update block_size) chunks hasher_new.

End Hasher.

(** ** The command line *)

(** The arguments of a command line, as the parser recognises them. *)
Inductive argument :=
| Positional (value : string)
| OptToken (value : string)   (** [--token VALUE], [-t VALUE] *)
| OptYes                      (** [--yes], [-y] *)
| OptNo                       (** [--no], [-n] *)
| OptDefault.                 (** [--default], [-d] *)

Record parse_state := {
  p_positionals : list string;
  p_token : option string;
  p_yes : bool;
  p_no : bool;
  p_default : bool
}.

Definition parse_start : parse_state :=
  {| p_positionals := []; p_token := None;
     p_yes := false; p_no := false; p_default := false |}.

(** One argument taken by the parser.  [--yes], [--no] and [--default] are
    in one mutually exclusive group: taking one of them after another one
    of the group is an error. *)
Definition take_action (st : parse_state) (a : argument)
  : string + parse_state :=
  match a with
  | Positional v =>
      inr {| p_positionals := p_positionals st ++ [v]; p_token := p_token st;
             p_yes := p_yes st; p_no := p_no st; p_default := p_default st |}
  | OptToken v =>
      inr {| p_positionals := p_positionals st; p_token := Some v;
             p_yes := p_yes st; p_no := p_no st; p_default := p_default st |}
  | OptYes =>
      if p_no st
      then inl "argument --yes/-y: not allowed with argument --no/-n"
      else if p_default st
      then inl "argument --yes/-y: not allowed with argument --default/-d"
      else inr {| p_positionals := p_positionals st; p_token := p_token st;
                  p_yes := true; p_no := p_no st; p_default := p_default st |}
  | OptNo =>
      if p_yes st
      then inl "argument --no/-n: not allowed with argument --yes/-y"
      else if p_default st
      then inl "argument --no/-n: not allowed with argument --default/-d"
      else inr {| p_positionals := p_positionals st; p_token := p_token st;
                  p_yes := p_yes st; p_no := true; p_default := p_default st |}
  | OptDefault =>
      if p_yes st
      then inl "argument --default/-d: not allowed with argument --yes/-y"
      else if p_no st
      then inl "argument --default/-d: not allowed with argument --no/-n"
      else inr {| p_positionals := p_positionals st; p_token := p_token st;
                  p_yes := p_yes st; p_no := p_no st; p_default := true |}
  end.

Fixpoint consume (st : parse_state) (argv : list argument)
  : string + parse_state :=
  match argv with
  | [] => inr st
  | a :: argv' =>
      match take_action st a with
      | inl msg => inl msg
      | inr st' => consume st' argv'
      end
  end.

(** After the last argument: the required ones must be there, and no
    positional may be left over. *)
Definition finish_parse (st : parse_state) : string + Namespace :=
  match p_positionals st, p_token st with
  | [source; destination], Some token =>
      inr {| ns_source := source; ns_destination := destination;
             ns_token := token; ns_yes := p_yes st; ns_no := p_no st;
             ns_default := p_default st |}
  | _ :: _ :: _ :: _, Some _ => inl "unrecognized arguments"
  | _, _ => inl "the following arguments are required"
  end.

(** [parser.parse_args()]: an error is written to standard error and ends
    the program with status 2. *)
Definition parse_args (argv : list argument) : M Namespace :=
  match consume parse_start argv with
  | inl msg => emit (Stderr msg) ;; raise (SystemExit 2)
  | inr st =>
      match finish_parse st with
      | inl msg => emit (Stderr msg) ;; raise (SystemExit 2)
      | inr args => ret args
      end
  end.

(** [args.attr]: the namespace has the attributes the parser declares and
    no other. *)
Definition getattr (args : Namespace) (attr : string) : M pyval :=
  if String.eqb attr "source" then ret (PyStr (ns_source args))
  else if String.eqb attr "destination" then ret (PyStr (ns_destination args))
  else if String.eqb attr "token" then ret (PyStr (ns_token args))
  else if String.eqb attr "yes" then ret (PyBool (ns_yes args))
  else if String.eqb attr "no" then ret (PyBool (ns_no args))
  else if String.eqb attr "default" then ret (PyBool (ns_default args))
  else raise (AttributeError "Namespace" attr).

(** ** [yesno] *)

Definition is_in2 (answer a b : string) : bool :=
  String.eqb answer a || String.eqb answer b.

(** The [while True] loop of [yesno], one round per line read. *)
Fixpoint yesno_loop (message : string) (default : bool) (stdin : list string)
  : run bool :=
  match stdin with
  | [] => Run [Input message None] (Raise EOFError) []
  | line :: rest =>
      let answer := PyStr.lower (PyStr.strip line) in
      let asked := Input message (Some line) in
      if String.eqb answer "" then Run [asked] (Ok default) rest
      else if is_in2 answer "y" "yes" then Run [asked] (Ok true) rest
      else if is_in2 answer "n" "no" then Run [asked] (Ok false) rest
      else if is_in2 answer "q" "quit"
      then Run [asked; Print [OStr "Exit"]] (Raise (SystemExit 0)) rest
      else
        let r := yesno_loop message default rest in
        Run (asked
             :: (if is_in2 answer "p" "pdb" then [Debugger] else [])
             ++ Print [OStr "Please answer YES or NO."] :: trace r)
            (outcome r) (stdin_left r)
  end.

Definition yesno (message : string) (default : bool) (args : Namespace)
  : M bool :=
  if ns_default args then emit (Auto message default) ;; ret default
  else if ns_yes args then emit (Auto message true) ;; ret true
  else if ns_no args then emit (Auto message false) ;; ret false
  else yesno_loop (message ++ (if default then "? [Y/n] " else "? [N/y] "))
                  default.

(** [try: m  except: h  else: els] *)
Definition try_except_else {A B} (m : M A) (h : exn -> option (M B))
    (els : A -> M B) : M B :=
  fun i =>
    let r := m i in
    match outcome r with
    | Ok a =>
        let r' := els a (stdin_left r) in
        Run (trace r ++ trace r') (outcome r') (stdin_left r')
    | Raise e =>
        match h e with
        | Some k =>
            let r' := k (stdin_left r) in
            Run (trace r ++ trace r') (outcome r') (stdin_left r')
        | None => Run (trace r) (Raise e) (stdin_left r)
        end
    end.

(** ** The functions of [sync.py] *)

Section Engine.

(** [os.path.sep] *)
Variable sep : ascii.
(** [unicodedata.normalize('NFC', _)] *)
Variable nfc : string -> string.
(** SHA-256 *)
Variable sha256 : list byte -> list byte.

(** [md.client_modified], [md.size], [md.content_hash]: attributes of a
    file record only. *)
Definition get_client_modified (md : Metadata) : M Z :=
  match md with
  | FileMetadata _ _ cm _ => ret cm
  | DirectoryMetadata _ =>
      raise (AttributeError "DirectoryMetadata" "client_modified")
  end.

Definition get_size (md : Metadata) : M Z :=
  match md with
  | FileMetadata _ sz _ _ => ret sz
  | DirectoryMetadata _ => raise (AttributeError "DirectoryMetadata" "size")
  end.

Definition get_content_hash (md : Metadata) : M string :=
  match md with
  | FileMetadata _ _ _ h => ret h
  | DirectoryMetadata _ =>
      raise (AttributeError "DirectoryMetadata" "content_hash")
  end.

(** The [datetime] built from the first six fields of [time.gmtime(mtime)]:
    the whole seconds of [mtime], in UTC. *)
Definition mtime_seconds (mtime : Q) : Z := Qfloor mtime.

Definition getmtime (fullname : string) (file : File) : M Q :=
  emit (GetMtime fullname) ;; ret (f_mtime file).

Definition getsize (fullname : string) (file : File) : M Z :=
  emit (GetSize fullname) ;; ret (Z.of_nat (length (f_data file))).

Definition list_directory (dbx : Dropbox) (directory subdirectory : string)
  : M (gmap string Metadata) :=
  let path := Paths.list_path sep directory subdirectory in
  try_except_else
    (stopwatch "list_directory"
       (emit (RemoteList path) ;; lift (files_list_directory dbx path)))
    (fun e =>
       match e with
       | ApiError err =>
           Some (print [OStr "Directory listing failed for"; OStr path;
                        OStr "-- assumed empty:"; OExn e] ;;
                 ret ∅)
       | _ => None
       end)
    (fun entries =>
       ret (fold_left (fun rv entry => <[md_name entry := entry]> rv)
                      entries ∅)).

Definition download (dbx : Dropbox) (directory subdirectory name : string)
  : M (option (list byte)) :=
  let path := Paths.download_path sep directory subdirectory name in
  r <- stopwatch "download"
         (try_except_else
            (emit (RemoteDownload path) ;; lift (files_download dbx path))
            (fun e =>
               match e with
               | HttpError err =>
                   Some (print [OStr "*** HTTP error"; OExn e] ;; ret None)
               | _ => None
               end)
            (fun r => ret (Some r))) ;;
  match r with
  | None => ret None
  | Some (md, data) =>
      print [OInt (Z.of_nat (length data)); OStr "bytes; md:";
             OStr (md_name md)] ;;
      ret (Some data)
  end.

Definition upload (dbx : Dropbox) (fullname : string) (file : File)
    (directory subdirectory name : string) (overwrite_flag : bool)
  : M (option Metadata) :=
  let path := Paths.upload_path sep directory subdirectory name in
  let mode := if overwrite_flag then overwrite else add in
  mtime <- getmtime fullname file ;;
  emit (ReadFile fullname) ;;
  let data := f_data file in
  r <- stopwatch ("upload " ++ pretty (length data) ++ " bytes")
         (try_except_else
            (emit (RemoteUpload data path mode (mtime_seconds mtime)) ;;
             lift (files_upload dbx data path mode (mtime_seconds mtime)))
            (fun e =>
               match e with
               | ApiError err =>
                   Some (print [OStr "*** API error"; OExn e] ;; ret None)
               | _ => None
               end)
            (fun res => ret (Some res))) ;;
  match r with
  | None => ret None
  | Some res => print [OStr "uploaded as"; OStr (md_name res)] ;; ret (Some res)
  end.

(** What [dropbox_hash] returns for a file with these bytes. *)
Definition local_hash (data : list byte) : string :=
  default "" (dropbox_hash_bytes sha256 BLOCK_SIZE data).

Definition dropbox_hash (fn : string) (file : File) : M string :=
  emit (ReadFile fn) ;; ret (local_hash (f_data file)).

(** The test of line 87: a file record whose time and size are the local
    ones. *)
Definition stats_match (md : Metadata) (mtime_dt size : Z) : bool :=
  match md with
  | FileMetadata _ sz cm _ => Z.eqb mtime_dt cm && Z.eqb size sz
  | DirectoryMetadata _ => false
  end.

(** The body of the loop over [files] (lines 72 to 105), for the file
    [name] of the directory [dn]; the result names the branch taken. *)
Definition process_file (args : Namespace) (dbx : Dropbox)
    (directory subdirectory dn : string) (listing : gmap string Metadata)
    (name : string) (file : File) : M Decision :=
  let fullname := Paths.path_join sep dn name in
  let nname := nfc name in
  if PyStr.startswith "." name then
    print [OStr "Skipping dot file:"; OStr name] ;; ret SkipPruned
  else if PyStr.startswith "@" name || PyStr.endswith "~" name then
    print [OStr "Skipping temporary file:"; OStr name] ;; ret SkipPruned
  else if PyStr.endswith ".pyc" name || PyStr.endswith ".pyo" name then
    print [OStr "Skipping generated file:"; OStr name] ;; ret SkipPruned
  else
    match listing !! nname with
    | Some md =>
        mtime <- getmtime fullname file ;;
        let mtime_dt := mtime_seconds mtime in
        size <- getsize fullname file ;;
        if stats_match md mtime_dt size then
          print [OStr name; OStr "is already synced [stats match]"] ;;
          ret AlreadySynced
        else
          when (negb (is_FileMetadata md))
               (print [OStr "couldn’t fetch metadata"]) ;;
          cm <- get_client_modified md ;;
          when (negb (Z.eqb mtime_dt cm))
               (print [OTime mtime_dt; OTime cm; OStr "time mismatch"]) ;;
          sz <- get_size md ;;
          when (negb (Z.eqb size sz))
               (print [OInt size; OInt sz; OStr "size mismatch"]) ;;
          db_hash <- dropbox_hash fullname file ;;
          ch <- get_content_hash md ;;
          if negb (String.eqb db_hash ch) then
            print [OStr name; OStr "hash is different, too"] ;;
            yes <- yesno ("Refresh " ++ name) false args ;;
            if yes then
              upload dbx fullname file directory subdirectory name true ;;
              ret UploadOverwrite
            else ret FlagMismatchNoAction
          else
            print [OStr db_hash; OStr "hash matches. skipping."] ;;
            ret AlreadySynced
    | None =>
        yes <- yesno ("Upload " ++ name) true args ;;
        when yes
          (upload dbx fullname file directory subdirectory name false ;;
           ret tt) ;;
        ret UploadNew
    end.

(** The body of the loop over [dirs] (lines 110 to 120): whether [name] is
    appended to [keep]. *)
Definition keep_dir (args : Namespace) (name : string) : M bool :=
  if PyStr.startswith "." name then
    print [OStr "Skipping dot directory:"; OStr name] ;; ret false
  else if PyStr.startswith "@" name || PyStr.endswith "~" name then
    print [OStr "Skipping temporary directory:"; OStr name] ;; ret false
  else if String.eqb name "__pycache__" then
    print [OStr "Skipping generated directory:"; OStr name] ;; ret false
  else
    yes <- yesno ("Descend into " ++ name) true args ;;
    if yes then print [OStr "Keeping directory:"; OStr name] ;; ret true
    else print [OStr "OK, skipping directory:"; OStr name] ;; ret false.

(** Lines 108 to 120: the list [keep]. *)
Fixpoint filter_dirs (args : Namespace) (names : list string)
  : M (list string) :=
  match names with
  | [] => ret []
  | name :: names' =>
      kept <- keep_dir args name ;;
      keep <- filter_dirs args names' ;;
      ret (if kept then name :: keep else keep)
  end.

(** One round of the loop over [os.walk(rootdir)] once the listing is
    there (lines 68 to 121), for the directory [dn] with its [files] and
    the names of its subdirectories; the result is [keep]. *)
Definition visit (args : Namespace) (dbx : Dropbox)
    (directory subdirectory dn : string) (listing : gmap string Metadata)
    (files : list (string * File)) (dirnames : list string)
  : M (list string) :=
  print [OStr "Descending into"; OStr subdirectory; OStr "..."] ;;
  for_each files
    (fun '(name, file) =>
       process_file args dbx directory subdirectory dn listing name file ;;
       ret tt) ;;
  filter_dirs args dirnames.

(** [os.walk] goes on, top down, with the subdirectories whose names are
    in [keep], in their order. *)
Definition descend (rec : string -> Dir -> M unit) (dn : string)
    (keep : list string) : list (string * Dir) -> M unit :=
  fix go (dirs : list (string * Dir)) : M unit :=
    match dirs with
    | [] => ret tt
    | (name, sub) :: dirs' =>
        when (bool_decide (name ∈ keep)) (rec (Paths.path_join sep dn name) sub) ;;
        go dirs'
    end.

(** [dn[len(rootdir):].strip(os.path.sep)] *)
Definition subdirectory_of (rootdir dn : string) : string :=
  PyStr.strip_char sep (PyStr.drop (String.length rootdir) dn).

(** The loop [for dn, dirs, files in os.walk(rootdir)] (lines 65 to 121),
    from the directory [dn] on. *)
Fixpoint walk (args : Namespace) (dbx : Dropbox) (directory rootdir : string)
    (dn : string) (d : Dir) {struct d} : M unit :=
  match d with
  | MkDir files dirs =>
      let subdirectory := subdirectory_of rootdir dn in
      listing <- list_directory dbx directory subdirectory ;;
      keep <- visit args dbx directory subdirectory dn listing files
                    (map fst dirs) ;;
      descend (walk args dbx directory rootdir) dn keep dirs
  end.

(** The local file system, by path. *)
Variable fs : string -> option FsNode.
(** [os.path.expanduser] *)
Variable expanduser : string -> string.
(** [dropbox.Dropbox] *)
Variable Dropbox_new : string -> Dropbox.

(** [main] from line 54 on, [directory] and [rootdir] being set. *)
Definition main_body (args : Namespace) (directory rootdir : string)
  : M unit :=
  print [OStr "Dropbox directory name:"; OStr directory] ;;
  print [OStr "Local directory:"; OStr rootdir] ;;
  match fs rootdir with
  | None =>
      print [OStr rootdir; OStr "does not exist on your filesystem"] ;;
      raise (SystemExit 1)
  | Some (FsFile _) =>
      print [OStr rootdir; OStr "is not a directory on your filesystem"] ;;
      raise (SystemExit 1)
  | Some (FsDir d) =>
      emit (Connect (ns_token args)) ;;
      let dbx := Dropbox_new (ns_token args) in
      walk args dbx directory rootdir rootdir d
  end.

Definition as_str (v : pyval) : string :=
  match v with
  | PyStr s => s
  | PyBool b => if b then "True" else "False"
  end.

(** [main]: the command line is parsed, then [args.directory] and
    [args.rootdir] are read (lines 52 and 53). *)
Definition main (argv : list argument) : M unit :=
  args <- parse_args argv ;;
  directory <- getattr args "directory" ;;
  rootdir <- getattr args "rootdir" ;;
  main_body args (as_str directory) (expanduser (as_str rootdir)).

End Engine.

(** ** Observations on runs *)

(** A fixed list of effects and nothing else. *)
Definition emits (evs : list event) : M unit := fun i => Run evs (Ok tt) i.

Definition is_upload (e : event) : bool :=
  match e with
  | RemoteUpload _ _ _ _ => true
  | _ => false
  end.

(** [yesno] was asked: it answered from a flag or it prompted. *)
Definition is_confirmation (e : event) : bool :=
  match e with
  | Auto _ _ | Input _ _ => true
  | _ => false
  end.

(** The bytes of a local file were read. *)
Definition is_read (e : event) : bool :=
  match e with
  | ReadFile _ => true
  | _ => false
  end.

(** A line that [yesno] takes as a request to quit. *)
Definition is_quit_line (line : string) : bool :=
  is_in2 (PyStr.lower (PyStr.strip line)) "q" "quit".

(** What follows the first prompt that was answered by a quit line, if
    there is one. *)
Fixpoint after_quit (t : list event) : option (list event) :=
  match t with
  | [] => None
  | Input _ (Some line) :: t' =>
      if is_quit_line line then Some t' else after_quit t'
  | _ :: t' => after_quit t'
  end.

(** A piece of the program that never reads a quit line. *)
Definition quiet {A} (m : M A) : Prop :=
  forall i, after_quit (trace (m i)) = None.

(** A piece of the program in which a quit line, once read, is followed
    by the line [Exit] and nothing more, and ends as [SystemExit(0)]. *)
Definition quit_ok {A} (m : M A) : Prop :=
  forall i post,
    after_quit (trace (m i)) = Some post ->
    post = [Print [OStr "Exit"]] /\ outcome (m i) = Raise (SystemExit 0).

(** The pruning policy as section 4.2 words it: the first rule that
    matches, in the order dot, temporary, generated. *)
Inductive rule := DotRule | TemporaryRule | GeneratedRule.

Definition pruning_spec (is_directory : bool) (name : string) : option rule :=
  if PyStr.startswith "." name then Some DotRule
  else if PyStr.startswith "@" name || PyStr.endswith "~" name
  then Some TemporaryRule
  else if is_directory
  then (if String.eqb name "__pycache__" then Some GeneratedRule else None)
  else if PyStr.endswith ".pyc" name || PyStr.endswith ".pyo" name
  then Some GeneratedRule
  else None.

Definition skip_message (is_directory : bool) (r : rule) : string :=
  match r, is_directory with
  | DotRule, false => "Skipping dot file:"
  | DotRule, true => "Skipping dot directory:"
  | TemporaryRule, false => "Skipping temporary file:"
  | TemporaryRule, true => "Skipping temporary directory:"
  | GeneratedRule, false => "Skipping generated file:"
  | GeneratedRule, true => "Skipping generated directory:"
  end.




(** ** A small world to run the program in *)

Module Example.

Definition sha (bs : list byte) : list byte := take 4 (rev bs).

Definition hello : list byte := [Byte.x68; Byte.x65; Byte.x6c; Byte.x6c; Byte.x6f].

(** Five bytes, last modified half a second after 1700000000. *)
Definition file_a : File := {| f_mtime := 3400000001 # 2; f_data := hello |}.

Definition remote_entries : list Metadata :=
  [ FileMetadata ".env" 5 1700000000 "00";
    FileMetadata "a.txt" 5 1700000000 "00";
    DirectoryMetadata "docs" ].

Definition dbx : Dropbox := {|
  files_list_directory := fun path =>
    if String.eqb path "/backup" then inr remote_entries
    else inl (ApiError "path/not_found");
  files_upload := fun data path mode cm =>
    inr (FileMetadata path (Z.of_nat (length data)) cm "");
  files_download := fun path => inl (HttpError "404")
|}.

(** A store whose listing call fails below the API level. *)
Definition dbx_http : Dropbox := {|
  files_list_directory := fun path => inl (HttpError "500");
  files_upload := files_upload dbx;
  files_download := files_download dbx
|}.

Definition listing : gmap string Metadata :=
  list_to_map (map (fun md => (md_name md, md)) remote_entries).

Definition interactive : Namespace := {|
  ns_source := "/home/u/src"; ns_destination := "backup"; ns_token := "T";
  ns_yes := false; ns_no := false; ns_default := false
|}.

Definition yes_and_no : Namespace := {|
  ns_source := "/home/u/src"; ns_destination := "backup"; ns_token := "T";
  ns_yes := true; ns_no := true; ns_default := false
|}.

Definition tree : Dir :=
  MkDir [("a.txt", file_a); ("b.txt", file_a)]
        [("sub", MkDir [("c.txt", file_a)] [])].

Definition fs (path : string) : option FsNode :=
  if String.eqb path "/home/u/src" then Some (FsDir tree)
  else if String.eqb path "/home/u/notes.txt" then Some (FsFile file_a)
  else None.

Definition argv_missing : list argument :=
  [Positional "/no/such/dir"; Positional "backup"; OptToken "T"].

End Example.

(** ** Further observations *)

(** The lines that a run took from the standard input, as its prompts
    show them. *)
Definition lines_read (t : list event) : list string :=
  omap (fun e => match e with Input _ (Some l) => Some l | _ => None end) t.

(** A triple for a piece of the program: every effect satisfies [Q], what
    it returns satisfies [R], what it raises satisfies [E], and the lines
    it took from the standard input are those its prompts show. *)
Definition holds {A} (Q : event -> Prop) (R : A -> Prop) (E : exn -> Prop)
    (m : M A) : Prop :=
  forall i,
    Forall Q (trace (m i)) /\
    match outcome (m i) with
    | Ok a => R a
    | Raise e => E e
    end /\
    i = lines_read (trace (m i)) ++ stdin_left (m i).

(** An entry of some listing of the remote store. *)
Definition listed (dbx : Dropbox) (md : Metadata) : Prop :=
  exists path entries,
    files_list_directory dbx path = inr entries /\ md ∈ entries.


Definition is_input (e : event) : bool :=
  match e with
  | Input _ _ => true
  | _ => false
  end.

(** An upload that may replace a remote file. *)
Definition is_overwrite (e : event) : bool :=
  match e with
  | RemoteUpload _ _ overwrite _ => true
  | _ => false
  end.

(** What a line answers at the prompt of [yesno], if it is one of the
    answers that end the question with a value. *)
Definition answer_of (default : bool) (line : string) : option bool :=
  let answer := PyStr.lower (PyStr.strip line) in
  if String.eqb answer "" then Some default
  else if is_in2 answer "y" "yes" then Some true
  else if is_in2 answer "n" "no" then Some false
  else None.






(** ** More of the small world *)

Module Example2.

Definition no_only : Namespace := {|
  ns_source := "/home/u/src"; ns_destination := "backup"; ns_token := "T";
  ns_yes := false; ns_no := true; ns_default := false
|}.

Definition default_only : Namespace := {|
  ns_source := "/home/u/src"; ns_destination := "backup"; ns_token := "T";
  ns_yes := false; ns_no := false; ns_default := true
|}.

Definition yes_only : Namespace := {|
  ns_source := "/home/u/src"; ns_destination := "backup"; ns_token := "T";
  ns_yes := true; ns_no := false; ns_default := false
|}.


End Example2.

(** * Properties *)

(** ** Remote paths *)

Section PathFacts.
Import PyStr Paths.

Lemma is_slash_eq (c : ascii) : is_slash c = true -> c = "/"%char.
Proof. unfold is_slash. apply Ascii.eqb_eq. Qed.

Lemma prefix_dslash (c d : ascii) (t : string) :
  startswith "//" (String c (String d t)) = is_slash c && is_slash d.
Proof. unfold is_slash. cbn [startswith]. now rewrite andb_true_r. Qed.

Lemma replace_dslash_cons2 (c d : ascii) (t : string) :
  replace_dslash (String c (String d t))
  = if is_slash c && is_slash d
    then String "/" (replace_dslash t)
    else String c (replace_dslash (String d t)).
Proof. reflexivity. Qed.

Lemma contains_cons (p : string) (c : ascii) (t : string) :
  contains p (String c t) = startswith p (String c t) || contains p t.
Proof. reflexivity. Qed.

Lemma replace_dslash_le_aux (n : nat) :
  forall s, (String.length s <= n)%nat ->
  (String.length (replace_dslash s) <= String.length s)%nat.
Proof.
  induction n as [|n IH]; intros [|c [|d t]] L; simpl in L; try lia;
    try (simpl; lia).
  rewrite replace_dslash_cons2.
  destruct (is_slash c && is_slash d); cbn [String.length].
  - specialize (IH t). lia.
  - specialize (IH (String d t)). cbn [String.length] in IH. lia.
Qed.

Lemma replace_dslash_le (s : string) :
  (String.length (replace_dslash s) <= String.length s)%nat.
Proof. apply (replace_dslash_le_aux (String.length s)). lia. Qed.

Lemma replace_dslash_lt_aux (n : nat) :
  forall s, (String.length s <= n)%nat ->
  contains "//" s = true ->
  (String.length (replace_dslash s) < String.length s)%nat.
Proof.
  induction n as [|n IH]; intros [|c [|d t]] L H; simpl in L; try lia;
    try discriminate.
  - cbn [contains startswith] in H.
    rewrite andb_false_r in H. discriminate.
  - rewrite contains_cons, prefix_dslash in H.
    rewrite replace_dslash_cons2.
    destruct (is_slash c && is_slash d); simpl in H.
    + pose proof (replace_dslash_le t). cbn [String.length]. lia.
    + specialize (IH (String d t)). cbn [String.length] in *.
      apply IH in H; lia.
Qed.

(** A pass over a path that contains ['//'] shortens it. *)
Lemma replace_dslash_lt (s : string) :
  contains "//" s = true ->
  (String.length (replace_dslash s) < String.length s)%nat.
Proof. apply (replace_dslash_lt_aux (String.length s)). lia. Qed.

Lemma squeeze_from_replace_aux (n : nat) :
  forall s b, (String.length s <= n)%nat ->
  squeeze_from b (replace_dslash s) = squeeze_from b s.
Proof.
  induction n as [|n IH]; intros [|c [|d t]] b L; simpl in L; try lia;
    try reflexivity.
  rewrite replace_dslash_cons2.
  destruct (is_slash c) eqn:Ec; destruct (is_slash d) eqn:Ed; cbn [andb].
  - apply is_slash_eq in Ec, Ed. subst c d.
    cbn [squeeze_from]. change (is_slash "/") with true. cbn iota.
    rewrite (IH t true) by lia. reflexivity.
  - cbn [squeeze_from]. rewrite Ec.
    rewrite (IH (String d t) true) by (simpl; lia). reflexivity.
  - cbn [squeeze_from]. rewrite Ec.
    rewrite (IH (String d t) false) by (simpl; lia). reflexivity.
  - cbn [squeeze_from]. rewrite Ec.
    rewrite (IH (String d t) false) by (simpl; lia). reflexivity.
Qed.

Lemma squeeze_replace (s : string) : squeeze (replace_dslash s) = squeeze s.
Proof. apply (squeeze_from_replace_aux (String.length s)). lia. Qed.

Lemma squeeze_from_fixed (s : string) :
  forall b, contains "//" s = false ->
  (b = true -> startswith "/" s = false) ->
  squeeze_from b s = s.
Proof.
  induction s as [|c t IH]; intros b H Hb; [reflexivity|].
  rewrite contains_cons in H.
  apply orb_false_elim in H as [P H].
  cbn [squeeze_from]. destruct (is_slash c) eqn:Ec.
  - destruct b.
    + specialize (Hb eq_refl). cbn [startswith] in Hb.
      unfold is_slash in Ec. rewrite Ec in Hb. discriminate.
    + apply is_slash_eq in Ec. subst c. f_equal. apply IH; [exact H|].
      intros _. destruct t as [|d t]; [reflexivity|].
      rewrite prefix_dslash in P. change (is_slash "/") with true in P.
      cbn [startswith]. rewrite andb_true_r. exact P.
  - f_equal. apply IH; [exact H | discriminate].
Qed.

Lemma collapse_loop_squeeze (fuel : nat) :
  forall s, (String.length s <= fuel)%nat ->
  collapse_loop fuel s = squeeze s /\ contains "//" (collapse_loop fuel s) = false.
Proof.
  induction fuel as [|fuel IH]; intros s L.
  - destruct s; [split; reflexivity | simpl in L; lia].
  - cbn [collapse_loop]. destruct (contains "//" s) eqn:E.
    + pose proof (replace_dslash_lt s E).
      destruct (IH (replace_dslash s)) as [-> ?]; [lia|].
      split; [apply squeeze_replace | assumption].
    + split; [|exact E].
      symmetry. apply squeeze_from_fixed; [exact E | discriminate].
Qed.

(** The [while] loop ends with a path free of ['//'], which is the input
    with every run of ['/'] collapsed. *)
Lemma collapse_squeeze (s : string) : collapse s = squeeze s.
Proof. apply (collapse_loop_squeeze (String.length s)). lia. Qed.

Lemma collapse_no_dslash (s : string) : contains "//" (collapse s) = false.
Proof. apply (collapse_loop_squeeze (String.length s)). lia. Qed.

Lemma last_char_cons (c : ascii) (t : string) :
  t <> "" -> last_char (String c t) = last_char t.
Proof. destruct t; [congruence | reflexivity]. Qed.

Lemma last_char_None (s : string) : last_char s = None -> s = "".
Proof.
  induction s as [|c t IH]; [reflexivity|]. intros H.
  destruct t as [|d t]; [discriminate H|].
  rewrite last_char_cons in H by discriminate.
  apply IH in H. discriminate H.
Qed.



Lemma rstrip_char_id (c : ascii) (s : string) :
  last_char s <> Some c -> rstrip_char c s = s.
Proof.
  induction s as [|d t IH]; [reflexivity|]. intros H.
  cbn [rstrip_char]. destruct t as [|e t].
  - cbn [rstrip_char]. destruct (Ascii.eqb_spec d c) as [->|N];
      [contradiction H; reflexivity | reflexivity].
  - rewrite IH; [reflexivity|]. exact H.
Qed.

Lemma rstrip_char_last (c : ascii) (s : string) :
  last_char (rstrip_char c s) <> Some c.
Proof.
  induction s as [|d t IH]; [discriminate|].
  cbn [rstrip_char]. destruct (rstrip_char c t) as [|e t'] eqn:E.
  - destruct (Ascii.eqb_spec d c) as [->|N]; [discriminate|].
    cbn [last_char]. congruence.
  - exact IH.
Qed.


(** [download] and [upload] build their path by the same steps, on every
    input. *)
Lemma download_upload_path (sep : ascii) (directory subdirectory name : string) :
  download_path sep directory subdirectory name
  = upload_path sep directory subdirectory name.
Proof. reflexivity. Qed.

(** The path of [list_directory] has no trailing ['/']. *)
Lemma list_path_no_trailing (sep : ascii) (directory subdirectory : string) :
  last_char (list_path sep directory subdirectory) <> Some "/"%char.
Proof. apply rstrip_char_last. Qed.





End PathFacts.


(** ** The content hasher *)

Section HasherFacts.

Variable sha256 : list byte -> list byte.
Variable block_size : nat.
Hypothesis block_size_pos : (0 < block_size)%nat.

Lemma blocks_upto_enough (fuel1 : nat) :
  forall fuel2 data,
    (length data <= fuel1)%nat -> (length data <= fuel2)%nat ->
    blocks_upto fuel1 block_size data = blocks_upto fuel2 block_size data.
Proof.
  induction fuel1 as [|fuel1 IH]; intros fuel2 data L1 L2.
  - destruct data; [|simpl in L1; lia]. destruct fuel2; reflexivity.
  - destruct data as [|b data]; [destruct fuel2; reflexivity|].
    destruct fuel2 as [|fuel2]; [simpl in L2; lia|].
    cbn [blocks_upto]. f_equal.
    remember (b :: data) as l eqn:El.
    assert (length l = S (length data)) by (subst l; reflexivity).
    assert (length (drop block_size l) < length l)%nat
      by (rewrite length_drop; lia).
    apply IH; lia.
Qed.

(** The cut into blocks, one block at a time. *)
Lemma blocks_cons (data : list byte) :
  data <> [] ->
  blocks block_size data
  = take block_size data :: blocks block_size (drop block_size data).
Proof.
  intros Hd. unfold blocks. destruct data as [|b data]; [congruence|].
  remember (b :: data) as l eqn:El.
  assert (Hl : length l = S (length data)) by (subst l; reflexivity).
  rewrite Hl.
  assert (Hstep : forall fuel,
            blocks_upto (S fuel) block_size l
            = take block_size l :: blocks_upto fuel block_size (drop block_size l))
    by (subst l; reflexivity).
  rewrite Hstep. f_equal.
  apply blocks_upto_enough; rewrite length_drop; lia.
Qed.

Lemma blocks_nil : blocks block_size [] = [].
Proof. reflexivity. Qed.

Lemma blocks_full (blk rest : list byte) :
  length blk = block_size ->
  blocks block_size (blk ++ rest) = blk :: blocks block_size rest.
Proof.
  intros L. rewrite blocks_cons.
  - rewrite take_app_length' by (symmetry; exact L).
    rewrite drop_app_length' by (symmetry; exact L). reflexivity.
  - destruct blk; [simpl in L; lia | discriminate].
Qed.

Lemma blocks_short (blk : list byte) :
  blk <> [] -> (length blk <= block_size)%nat ->
  blocks block_size blk = [blk].
Proof.
  intros Hb L. rewrite blocks_cons by exact Hb.
  rewrite take_ge by exact L. rewrite drop_ge by exact L. reflexivity.
Qed.

(** What a hasher answers once it has been fed [rest]: the digests closed
    so far, then the blocks of what is open together with [rest]. *)
Lemma hexdigest_update (rest : list byte) :
  forall h : DropboxContentHasher,
    (length (block h) <= block_size)%nat ->
    hexdigest sha256 (update sha256 block_size h rest)
    = hex (sha256 (overall h
                   ++ concat (map sha256 (blocks block_size (block h ++ rest))))).
Proof.
  induction rest as [|b rest IH]; intros h L.
  - cbn [update fold_left]. unfold hexdigest. rewrite app_nil_r.
    destruct (block h) as [|x blk] eqn:E.
    + rewrite blocks_nil. cbn [map concat]. now rewrite app_nil_r.
    + rewrite blocks_short by (congruence || exact L).
      cbn [map concat]. now rewrite app_nil_r.
  - change (update sha256 block_size h (b :: rest))
      with (update sha256 block_size (feed sha256 block_size h b) rest).
    unfold feed. destruct (Nat.eqb_spec (length (block h)) block_size) as [E|N].
    + rewrite IH by (cbn [block length]; lia). cbn [overall block].
      rewrite (blocks_full (block h) (b :: rest)) by exact E.
      cbn [map concat]. now rewrite <- app_assoc.
    + rewrite IH by (cbn [block]; rewrite length_app; cbn [length]; lia).
      cbn [overall block]. now rewrite <- app_assoc.
Qed.

Lemma update_app (h : DropboxContentHasher) (a b : list byte) :
  update sha256 block_size h (a ++ b)
  = update sha256 block_size (update sha256 block_size h a) b.
Proof. unfold update. apply fold_left_app. Qed.

Lemma fold_update_concat (chunks : list (list byte)) :
  forall h,
    fold_left (update sha256 block_size) chunks h
    = update sha256 block_size h (concat chunks).
Proof.
  induction chunks as [|c chunks IH]; intros h; [reflexivity|].
  cbn [fold_left concat]. rewrite IH. now rewrite update_app.
Qed.

(** Feeding chunks is feeding their concatenation: the cut into chunks is
    not seen by the hasher. *)
Lemma feed_chunks_concat (chunks : list (list byte)) :
  hexdigest sha256 (feed_chunks sha256 block_size chunks)
  = content_hash_spec sha256 block_size (concat chunks).
Proof.
  unfold feed_chunks. rewrite fold_update_concat.
  rewrite hexdigest_update by (cbn; lia). reflexivity.
Qed.

(** The reading loop of [dropbox_hash] leaves by its [break], having fed
    the whole file. *)
Lemma read_loop_enough (fuel : nat) :
  forall (h : DropboxContentHasher) (f : list byte),
    (length f < fuel)%nat ->
    read_loop sha256 block_size fuel h f
    = Some (update sha256 block_size h f).
Proof.
  induction fuel as [|fuel IH]; intros h f L; [lia|].
  cbn [read_loop]. destruct (Nat.eqb_spec (length (take 1024 f)) 0) as [E|N].
  - rewrite length_take in E.
    destruct f; [reflexivity | cbn [length] in E; lia].
  - rewrite length_take in N.
    rewrite IH by (rewrite length_drop; lia).
    rewrite <- update_app. now rewrite take_drop.
Qed.

Lemma dropbox_hash_bytes_spec (data : list byte) :
  dropbox_hash_bytes sha256 block_size data
  = Some (content_hash_spec sha256 block_size data).
Proof.
  unfold dropbox_hash_bytes. rewrite read_loop_enough by lia.
  cbn [fmap option_fmap option_map]. f_equal.
  rewrite hexdigest_update by (cbn; lia). reflexivity.
Qed.

End HasherFacts.

Lemma BLOCK_SIZE_pos : (0 < BLOCK_SIZE)%nat.
Proof. unfold BLOCK_SIZE. lia. Qed.

(** What [dropbox_hash] returns is the content hash of section 4.1. *)
Lemma local_hash_spec (sha256 : list byte -> list byte) (data : list byte) :
  local_hash sha256 data = content_hash_spec sha256 BLOCK_SIZE data.
Proof.
  unfold local_hash.
  now rewrite (dropbox_hash_bytes_spec sha256 BLOCK_SIZE BLOCK_SIZE_pos).
Qed.

(** C3: the hash [dropbox_hash] computes is the hexadecimal SHA-256 of the
    concatenated SHA-256 digests of the 4 MiB blocks of the bytes, and any
    two ways of cutting the same bytes into chunks give the hasher the
    same digest. *)
Theorem C3_content_hash (sha256 : list byte -> list byte)
    (data : list byte) (chunks1 chunks2 : list (list byte))
    (fn : string) (mtime : Q) (stdin : list string) :
  concat chunks1 = data ->
  concat chunks2 = data ->
  dropbox_hash sha256 fn {| f_mtime := mtime; f_data := data |} stdin
    = Run [ReadFile fn] (Ok (content_hash_spec sha256 BLOCK_SIZE data)) stdin /\
  dropbox_hash_bytes sha256 BLOCK_SIZE data
    = Some (content_hash_spec sha256 BLOCK_SIZE data) /\
  hexdigest sha256 (feed_chunks sha256 BLOCK_SIZE chunks1)
    = content_hash_spec sha256 BLOCK_SIZE data /\
  hexdigest sha256 (feed_chunks sha256 BLOCK_SIZE chunks1)
    = hexdigest sha256 (feed_chunks sha256 BLOCK_SIZE chunks2).
Proof.
  intros E1 E2. pose proof BLOCK_SIZE_pos as P.
  split; [|split; [apply dropbox_hash_bytes_spec; exact P|]].
  - unfold dropbox_hash. rewrite local_hash_spec. reflexivity.
  - rewrite !feed_chunks_concat by exact P. rewrite E1, E2. split; reflexivity.
Qed.

(** ** The monad of runs *)

Section RunFacts.

Context {A B : Type}.

Lemma bind_ret (a : A) (k : A -> M B) (i : list string) :
  bind (ret a) k i = k a i.
Proof. unfold bind, ret. cbn. destruct (k a i); reflexivity. Qed.

Lemma bind_raise (e : exn) (k : A -> M B) (i : list string) :
  bind (raise e) k i = Run [] (Raise e) i.
Proof. reflexivity. Qed.

Lemma bind_ok (m : M A) (k : A -> M B) (i : list string) (a : A) :
  outcome (m i) = Ok a ->
  bind m k i
  = Run (trace (m i) ++ trace (k a (stdin_left (m i))))
        (outcome (k a (stdin_left (m i))))
        (stdin_left (k a (stdin_left (m i)))).
Proof. intros H. unfold bind. now rewrite H. Qed.

Lemma bind_fail (m : M A) (k : A -> M B) (i : list string) (e : exn) :
  outcome (m i) = Raise e ->
  bind m k i = Run (trace (m i)) (Raise e) (stdin_left (m i)).
Proof. intros H. unfold bind. now rewrite H. Qed.

Lemma bind_congr (m : M A) (k1 k2 : A -> M B) (i : list string) :
  (forall a, outcome (m i) = Ok a ->
             k1 a (stdin_left (m i)) = k2 a (stdin_left (m i))) ->
  bind m k1 i = bind m k2 i.
Proof.
  intros H. unfold bind. destruct (outcome (m i)) as [a|e]; [|reflexivity].
  now rewrite (H a).
Qed.

(** What is raised by a sequence is raised by its first part, or by the
    second after the first has returned. *)
Lemma bind_outcome (m : M A) (k : A -> M B) (i : list string) :
  outcome (bind m k i)
  = match outcome (m i) with
    | Ok a => outcome (k a (stdin_left (m i)))
    | Raise e => Raise e
    end.
Proof. unfold bind. destruct (outcome (m i)); reflexivity. Qed.

End RunFacts.

(** ** The command line and [yesno] *)

Section ConfirmationFacts.

(** C10: with a flag set, [yesno] takes the answer from the flags in the
    order default, yes, no, whatever other flags are set: the default
    answer when [--default] is set, else [True] when [--yes] is set (also
    when [--no] is set too), else [False]; it returns that answer, reads
    nothing and raises nothing. *)
Theorem C10_yesno_precedence (message : string) (default : bool)
    (args : Namespace) (stdin : list string) :
  ns_default args || ns_yes args || ns_no args = true ->
  yesno message default args stdin
  = let answer := if ns_default args then default
                  else if ns_yes args then true else false in
    Run [Auto message answer] (Ok answer) stdin.
Proof.
  unfold yesno.
  destruct (ns_default args), (ns_yes args), (ns_no args); intros H;
    try discriminate H; reflexivity.
Qed.




End ConfirmationFacts.

Section MainFacts.

Variable sep : ascii.
Variable nfc : string -> string.
Variable sha256 : list byte -> list byte.
Variable fs : string -> option FsNode.
Variable expanduser : string -> string.
Variable Dropbox_new : string -> Dropbox.

Local Abbreviation main' := (main sep nfc sha256 fs expanduser Dropbox_new).
Local Abbreviation main_body' := (main_body sep nfc sha256 fs Dropbox_new).


(** Whenever the command line parses, [main] ends at line 52: the
    namespace has no attribute [directory]. *)
Lemma main_attribute_error (argv : list argument) (args : Namespace)
    (stdin : list string) :
  parse_args argv stdin = Run [] (Ok args) stdin ->
  main' argv stdin
  = Run [] (Raise (AttributeError "Namespace" "directory")) stdin.
Proof.
  intros H. unfold main.
  rewrite (bind_ok _ _ _ args) by now rewrite H.
  rewrite H. reflexivity.
Qed.

(** From line 54 on, a source that does not exist or is not a directory
    is reported and ends the program with status 1, the remote client not
    having been built. *)
Lemma main_body_bad_source (args : Namespace) (directory rootdir : string)
    (stdin : list string) :
  (forall d, fs rootdir <> Some (FsDir d)) ->
  exists why,
    main_body' args directory rootdir stdin
    = Run [Print [OStr "Dropbox directory name:"; OStr directory];
           Print [OStr "Local directory:"; OStr rootdir];
           Print [OStr rootdir; OStr why]]
          (Raise (SystemExit 1)) stdin.
Proof.
  intros H. unfold main_body.
  destruct (fs rootdir) as [[f|d]|].
  - eexists. reflexivity.
  - contradiction (H d). reflexivity.
  - eexists. reflexivity.
Qed.

End MainFacts.

Lemma C10_yesno_precedence_witness :
  yesno "Upload a.txt" false Example.yes_and_no ["n"]
  = Run [Auto "Upload a.txt" true] (Ok true) ["n"].
Proof.
  apply (C10_yesno_precedence "Upload a.txt" false Example.yes_and_no ["n"]).
  reflexivity.
Defined.


(** C7, the code at a source that does not exist: [main] does not reach
    the test of the source.  The command line parses, and reading
    [args.directory] raises, the parser having declared [source] and
    [destination]. *)
Theorem C7_main_missing_source :
  Example.fs "/no/such/dir" = None /\
  main "/" (fun s => s) Example.sha Example.fs (fun s => s)
       (fun _ => Example.dbx) Example.argv_missing []
  = Run [] (Raise (AttributeError "Namespace" "directory")) [].
Proof. split; reflexivity. Qed.

(** ** The loop over files and directories *)

Section EngineFacts.

Variable sep : ascii.
Variable nfc : string -> string.
Variable sha256 : list byte -> list byte.

Local Abbreviation process_file' := (process_file sep nfc sha256).
Local Abbreviation walk' := (walk sep nfc sha256).
Local Abbreviation visit' := (visit sep nfc sha256).
Local Abbreviation list_directory' := (list_directory sep).

Lemma pruning_spec_file_None (name : string) :
  pruning_spec false name = None ->
  PyStr.startswith "." name = false /\
  PyStr.startswith "@" name || PyStr.endswith "~" name = false /\
  PyStr.endswith ".pyc" name || PyStr.endswith ".pyo" name = false.
Proof.
  unfold pruning_spec.
  destruct (PyStr.startswith "." name); [discriminate|].
  destruct (PyStr.startswith "@" name || PyStr.endswith "~" name);
    [discriminate|].
  destruct (PyStr.endswith ".pyc" name || PyStr.endswith ".pyo" name);
    [discriminate|]. auto.
Qed.

(** A pruned file: one line is printed and nothing else happens. *)
Lemma process_file_pruned (args : Namespace) (dbx : Dropbox)
    (directory subdirectory dn : string) (listing : gmap string Metadata)
    (name : string) (file : File) (stdin : list string) (r : rule) :
  pruning_spec false name = Some r ->
  process_file' args dbx directory subdirectory dn listing name file stdin
  = Run [Print [OStr (skip_message false r); OStr name]] (Ok SkipPruned) stdin.
Proof.
  unfold pruning_spec, process_file.
  destruct (PyStr.startswith "." name);
    [intros [= <-]; reflexivity|].
  destruct (PyStr.startswith "@" name || PyStr.endswith "~" name);
    [intros [= <-]; reflexivity|].
  destruct (PyStr.endswith ".pyc" name || PyStr.endswith ".pyo" name);
    [intros [= <-]; reflexivity | discriminate].
Qed.

Lemma keep_dir_pruned (args : Namespace) (name : string)
    (stdin : list string) (r : rule) :
  pruning_spec true name = Some r ->
  keep_dir args name stdin
  = Run [Print [OStr (skip_message true r); OStr name]] (Ok false) stdin.
Proof.
  unfold pruning_spec, keep_dir.
  destruct (PyStr.startswith "." name);
    [intros [= <-]; reflexivity|].
  destruct (PyStr.startswith "@" name || PyStr.endswith "~" name);
    [intros [= <-]; reflexivity|].
  destruct (String.eqb name "__pycache__");
    [intros [= <-]; reflexivity | discriminate].
Qed.

Lemma keep_dir_true (args : Namespace) (name : string) (stdin : list string) :
  outcome (keep_dir args name stdin) = Ok true ->
  pruning_spec true name = None.
Proof.
  destruct (pruning_spec true name) as [r|] eqn:E; [|reflexivity].
  rewrite (keep_dir_pruned _ _ _ _ E). discriminate.
Qed.

(** Only names that no pruning rule matches are in [keep]. *)
Lemma filter_dirs_kept (args : Namespace) (names : list string) :
  forall stdin keep,
    outcome (filter_dirs args names stdin) = Ok keep ->
    forall n, n ∈ keep -> pruning_spec true n = None.
Proof.
  induction names as [|name names IH]; intros stdin keep H n Hn.
  - injection H as <-. inversion Hn.
  - cbn [filter_dirs] in H. rewrite bind_outcome in H.
    destruct (outcome (keep_dir args name stdin)) as [kept|e] eqn:K;
      [|discriminate].
    rewrite bind_outcome in H.
    destruct (outcome (filter_dirs args names _)) as [keep'|e] eqn:F;
      [|discriminate].
    injection H as <-. destruct kept.
    + apply elem_of_cons in Hn as [->|Hn];
        [eapply keep_dir_true; eassumption | eapply IH; eassumption].
    + eapply IH; eassumption.
Qed.

Lemma pruning_spec_pycache : pruning_spec true "__pycache__" = Some GeneratedRule.
Proof. reflexivity. Qed.

Lemma visit_kept (args : Namespace) (dbx : Dropbox)
    (directory subdirectory dn : string) (listing : gmap string Metadata)
    (files : list (string * File)) (names : list string)
    (stdin : list string) (keep : list string) :
  outcome (visit' args dbx directory subdirectory dn listing files names stdin)
  = Ok keep ->
  forall n, n ∈ keep -> pruning_spec true n = None.
Proof.
  unfold visit. rewrite bind_outcome.
  destruct (outcome (print _ stdin)); [|discriminate].
  rewrite bind_outcome.
  destruct (outcome (for_each _ _ _)); [|discriminate].
  apply filter_dirs_kept.
Qed.

Lemma descend_cons (rec : string -> Dir -> M unit) (dn : string)
    (keep : list string) (name : string) (sub : Dir)
    (dirs : list (string * Dir)) :
  descend sep rec dn keep ((name, sub) :: dirs)
  = (when (bool_decide (name ∈ keep)) (rec (Paths.path_join sep dn name) sub) ;;
     descend sep rec dn keep dirs).
Proof. reflexivity. Qed.

(** What is under a subdirectory whose name is not in [keep] is not looked
    at. *)
Lemma descend_not_kept (rec : string -> Dir -> M unit) (dn : string)
    (keep : list string) (name : string) (sub sub' : Dir)
    (post : list (string * Dir)) :
  name ∉ keep ->
  forall pre stdin,
    descend sep rec dn keep (pre ++ (name, sub) :: post) stdin
    = descend sep rec dn keep (pre ++ (name, sub') :: post) stdin.
Proof.
  intros Hn. induction pre as [|[n d] pre IH]; intros stdin.
  - cbn [app]. rewrite !descend_cons.
    rewrite (bool_decide_eq_false_2 _ Hn). reflexivity.
  - cbn [app]. rewrite !descend_cons.
    apply bind_congr. intros _ _. apply IH.
Qed.

(** C4: the pruning rules are tried in the order dot, temporary,
    generated, and the first that matches decides.  A pruned file gets its
    one line and nothing else: no look at the remote listing, no hash, no
    confirmation, no upload.  A pruned directory is not kept, whatever the
    flags and the answers; so [__pycache__] is never in [keep], and the
    walk does not depend on what is under it. *)
Theorem C4_pruning (args : Namespace) (dbx : Dropbox)
    (directory subdirectory rootdir dn : string)
    (listing : gmap string Metadata) (name : string) (file : File)
    (names : list string) (files : list (string * File))
    (pre post : list (string * Dir)) (sub sub' : Dir)
    (stdin : list string) :
  match pruning_spec false name with
  | Some r =>
      process_file' args dbx directory subdirectory dn listing name file stdin
      = Run [Print [OStr (skip_message false r); OStr name]]
            (Ok SkipPruned) stdin
  | None => True
  end /\
  match pruning_spec true name with
  | Some r =>
      keep_dir args name stdin
      = Run [Print [OStr (skip_message true r); OStr name]] (Ok false) stdin
  | None => True
  end /\
  match outcome (filter_dirs args names stdin) with
  | Ok keep => "__pycache__" ∉ keep
  | Raise _ => True
  end /\
  walk' args dbx directory rootdir dn
        (MkDir files (pre ++ ("__pycache__", sub) :: post)) stdin
  = walk' args dbx directory rootdir dn
          (MkDir files (pre ++ ("__pycache__", sub') :: post)) stdin.
Proof.
  repeat split.
  - destruct (pruning_spec false name) eqn:E; [|exact I].
    now apply process_file_pruned.
  - destruct (pruning_spec true name) eqn:E; [|exact I].
    now apply keep_dir_pruned.
  - destruct (outcome (filter_dirs args names stdin)) as [keep|e] eqn:E;
      [|exact I].
    intros Hin. apply (filter_dirs_kept _ _ _ _ E) in Hin. discriminate.
  - cbn [walk]. rewrite !map_app. cbn [map fst].
    apply bind_congr. intros l _.
    apply bind_congr. intros keep E.
    apply descend_not_kept.
    intros Hin. apply (visit_kept _ _ _ _ _ _ _ _ _ _ E) in Hin. discriminate.
Qed.

(** A local file whose name is that of a remote directory: after the
    line of line 92 the loop reads [md.client_modified], which a directory
    record does not have. *)
Lemma process_file_directory_record (args : Namespace) (dbx : Dropbox)
    (directory subdirectory dn : string) (listing : gmap string Metadata)
    (name : string) (file : File) (rname : string) (stdin : list string) :
  pruning_spec false name = None ->
  listing !! nfc name = Some (DirectoryMetadata rname) ->
  process_file' args dbx directory subdirectory dn listing name file stdin
  = Run [GetMtime (Paths.path_join sep dn name);
         GetSize (Paths.path_join sep dn name);
         Print [OStr "couldn’t fetch metadata"]]
        (Raise (AttributeError "DirectoryMetadata" "client_modified")) stdin.
Proof.
  intros P L. apply pruning_spec_file_None in P as (P1 & P2 & P3).
  unfold process_file. rewrite P1, P2, P3, L. reflexivity.
Qed.

Lemma forallb_app_true {T} (f : T -> bool) (l1 l2 : list T) :
  forallb f l1 = true -> forallb f l2 = true -> forallb f (l1 ++ l2) = true.
Proof. intros H1 H2. rewrite forallb_app, H1, H2. reflexivity. Qed.

(** C1, as amended: for a file that no pruning rule matches and whose
    NFC-normalized name is in the listing as a file record, the loop ends
    in AlreadySynced, with no upload and without asking [yesno], exactly
    when (a) size and whole-second UTC modification time are those of the
    record or (b) the local content hash is the hash of the record; in
    case (a) the file is not read, and in case (b) the file is
    AlreadySynced whatever the metadata. *)
Theorem C1_already_synced (args : Namespace) (dbx : Dropbox)
    (directory subdirectory dn : string) (listing : gmap string Metadata)
    (name : string) (file : File) (rname : string) (sz cm : Z) (ch : string)
    (stdin : list string) :
  pruning_spec false name = None ->
  listing !! nfc name = Some (FileMetadata rname sz cm ch) ->
  let r := process_file' args dbx directory subdirectory dn listing
                         name file stdin in
  let stats := Z.of_nat (length (f_data file)) = sz
               /\ mtime_seconds (f_mtime file) = cm in
  let same_hash := local_hash sha256 (f_data file) = ch in
  ((outcome r = Ok AlreadySynced
    /\ forallb (fun e => negb (is_upload e)) (trace r) = true
    /\ forallb (fun e => negb (is_confirmation e)) (trace r) = true)
   <-> (stats \/ same_hash)) /\
  (stats -> forallb (fun e => negb (is_read e)) (trace r) = true) /\
  (same_hash -> outcome r = Ok AlreadySynced).
Proof.
  intros P L. apply pruning_spec_file_None in P as (P1 & P2 & P3).
  unfold process_file. rewrite P1, P2, P3, L. clear P1 P2 P3 L.
  unfold stats_match, getmtime, getsize, dropbox_hash.
  cbn -[yesno upload local_hash mtime_seconds Paths.path_join
        String.eqb Z.eqb].
  generalize (Paths.path_join sep dn name) as fullname.
  generalize (local_hash sha256 (f_data file)) as h.
  generalize (Z.of_nat (length (f_data file))) as size.
  generalize (mtime_seconds (f_mtime file)) as mtime_dt.
  intros mtime_dt size h fullname.
  destruct (mtime_dt =? cm)%Z eqn:Et;
    [pose proof (proj1 (Z.eqb_eq _ _) Et) as Pt
    |pose proof (proj1 (Z.eqb_neq _ _) Et) as Pt];
  (destruct (size =? sz)%Z eqn:Es;
    [pose proof (proj1 (Z.eqb_eq _ _) Es) as Ps
    |pose proof (proj1 (Z.eqb_neq _ _) Es) as Ps]);
  (destruct (String.eqb h ch) eqn:Eh;
    [pose proof (proj1 (String.eqb_eq _ _) Eh) as Ph
    |pose proof (proj1 (String.eqb_neq _ _) Eh) as Ph]);
  do 4 (cbn -[yesno upload String.eqb Z.eqb]; rewrite ?Et, ?Es, ?Eh);
  try (cbn; intuition congruence).
  all: unfold bind; destruct (yesno _ false args stdin) as [t1 [[]|e1] i1];
    cbn -[upload];
    try destruct (upload _ _ _ _ _ _ _ _ _) as [t2 [r2|e2] i2];
    cbn; intuition congruence.
Qed.

(** C6, as amended: when the listing call raises [ApiError] (not-found is
    one), [list_directory] prints the failure and returns the empty
    mapping, and the walk goes on through the directory with an empty
    listing. *)
Theorem C6_listing_api_error (args : Namespace) (dbx : Dropbox)
    (directory rootdir dn : string) (files : list (string * File))
    (dirs : list (string * Dir)) (err : string) (stdin : list string) :
  files_list_directory dbx
    (Paths.list_path sep directory (subdirectory_of sep rootdir dn))
  = inl (ApiError err) ->
  let subdirectory := subdirectory_of sep rootdir dn in
  let path := Paths.list_path sep directory subdirectory in
  let failure :=
    [RemoteList path; Elapsed "list_directory";
     Print [OStr "Directory listing failed for"; OStr path;
            OStr "-- assumed empty:"; OExn (ApiError err)]] in
  list_directory' dbx directory subdirectory stdin = Run failure (Ok ∅) stdin /\
  walk' args dbx directory rootdir dn (MkDir files dirs) stdin
  = (emits failure ;;
     keep <- visit' args dbx directory subdirectory dn ∅ files (map fst dirs) ;;
     descend sep (walk' args dbx directory rootdir) dn keep dirs) stdin.
Proof.
  intros H subdirectory path failure.
  assert (L : list_directory' dbx directory subdirectory stdin
              = Run failure (Ok ∅) stdin).
  { unfold list_directory. fold path. unfold try_except_else, stopwatch,
      try_finally, bind at 1. cbn [emit outcome trace stdin_left].
    unfold path, subdirectory. rewrite H. reflexivity. }
  split; [exact L|].
  cbn [walk]. fold subdirectory.
  rewrite (bind_ok _ _ _ ∅) by now rewrite L.
  rewrite L. reflexivity.
Qed.

End EngineFacts.

(** C1 as stated fails on a pruned file: [.env] is in the listing as a
    file record with the local size and time, and the loop skips it as a
    dot file instead of finding it AlreadySynced. *)
Lemma C1_counterexample :
  Example.listing !! ".env" = Some (FileMetadata ".env" 5 1700000000 "00") /\
  (Z.of_nat (length (f_data Example.file_a)) = 5%Z
   /\ mtime_seconds (f_mtime Example.file_a) = 1700000000%Z) /\
  process_file "/" (fun s => s) Example.sha Example.interactive Example.dbx
    "backup" "" "/home/u/src" Example.listing ".env" Example.file_a []
  = Run [Print [OStr "Skipping dot file:"; OStr ".env"]] (Ok SkipPruned) [] /\
  outcome
    (process_file "/" (fun s => s) Example.sha Example.interactive Example.dbx
       "backup" "" "/home/u/src" Example.listing ".env" Example.file_a [])
  <> Ok AlreadySynced.
Proof. repeat split; try reflexivity. vm_compute. discriminate. Qed.

Lemma C1_already_synced_witness :
  let r :=
    process_file "/" (fun s => s) Example.sha Example.interactive Example.dbx
      "backup" "" "/home/u/src" Example.listing "a.txt" Example.file_a ["y"] in
  let stats := Z.of_nat (length (f_data Example.file_a)) = 5%Z
               /\ mtime_seconds (f_mtime Example.file_a) = 1700000000%Z in
  let same_hash := local_hash Example.sha (f_data Example.file_a) = "00" in
  ((outcome r = Ok AlreadySynced
    /\ forallb (fun e => negb (is_upload e)) (trace r) = true
    /\ forallb (fun e => negb (is_confirmation e)) (trace r) = true)
   <-> (stats \/ same_hash)) /\
  (stats -> forallb (fun e => negb (is_read e)) (trace r) = true) /\
  (same_hash -> outcome r = Ok AlreadySynced).
Proof.
  apply (C1_already_synced "/" (fun s => s) Example.sha Example.interactive
           Example.dbx "backup" "" "/home/u/src" Example.listing "a.txt"
           Example.file_a "a.txt" 5 1700000000 "00" ["y"]);
    reflexivity.
Defined.

(** C2, the code at a local file named like a remote directory: the loop
    prints its line about the metadata and then raises [AttributeError]
    on [md.client_modified]; the walk ends there, the next file is not
    looked at. *)
Theorem C2_directory_collision :
  Example.listing !! "docs" = Some (DirectoryMetadata "docs") /\
  process_file "/" (fun s => s) Example.sha Example.interactive Example.dbx
    "backup" "" "/home/u/src" Example.listing "docs" Example.file_a []
  = Run [GetMtime "/home/u/src/docs"; GetSize "/home/u/src/docs";
         Print [OStr "couldn’t fetch metadata"]]
        (Raise (AttributeError "DirectoryMetadata" "client_modified")) [] /\
  walk "/" (fun s => s) Example.sha Example.interactive Example.dbx
    "backup" "/home/u/src" "/home/u/src"
    (MkDir [("docs", Example.file_a); ("b.txt", Example.file_a)] []) []
  = Run [RemoteList "/backup"; Elapsed "list_directory";
         Print [OStr "Descending into"; OStr ""; OStr "..."];
         GetMtime "/home/u/src/docs"; GetSize "/home/u/src/docs";
         Print [OStr "couldn’t fetch metadata"]]
        (Raise (AttributeError "DirectoryMetadata" "client_modified")) [].
Proof. repeat split; vm_compute; reflexivity. Qed.

(** C6 as stated fails: a listing call that fails with [HttpError] is not
    caught by [list_directory], and ends the walk. *)
Lemma C6_counterexample :
  list_directory "/" Example.dbx_http "backup" "" []
  = Run [RemoteList "/backup"; Elapsed "list_directory"]
        (Raise (HttpError "500")) [] /\
  outcome (main_body "/" (fun s => s) Example.sha Example.fs
             (fun _ => Example.dbx_http) Example.interactive
             "backup" "/home/u/src" [])
  = Raise (HttpError "500").
Proof. split; vm_compute; reflexivity. Qed.

Lemma C6_listing_api_error_witness :
  list_directory "/" Example.dbx "backup" "sub" ["y"]
  = Run [RemoteList "/backup/sub"; Elapsed "list_directory";
         Print [OStr "Directory listing failed for"; OStr "/backup/sub";
                OStr "-- assumed empty:"; OExn (ApiError "path/not_found")]]
        (Ok ∅) ["y"].
Proof.
  apply (C6_listing_api_error "/" (fun s => s) Example.sha Example.interactive
           Example.dbx "backup" "/home/u/src" "/home/u/src/sub"
           [("c.txt", Example.file_a)] [] "path/not_found" ["y"]).
  reflexivity.
Defined.

(** ** Quitting *)

Section QuitFacts.

Lemma after_quit_app (t1 t2 : list event) :
  after_quit (t1 ++ t2)
  = match after_quit t1 with
    | Some post => Some (post ++ t2)
    | None => after_quit t2
    end.
Proof.
  induction t1 as [|e t1 IH]; [reflexivity|].
  destruct e; cbn [app after_quit]; try exact IH.
  destruct line as [line|]; [|exact IH].
  destruct (is_quit_line line); [reflexivity | exact IH].
Qed.

Lemma is_in2_true (a x y : string) : is_in2 a x y = true -> a = x \/ a = y.
Proof.
  unfold is_in2. intros H. apply orb_true_iff in H as [H|H];
    apply String.eqb_eq in H; auto.
Qed.

Context {A B : Type}.

Lemma quiet_ret (a : A) : quiet (ret a).
Proof. intros i. reflexivity. Qed.

Lemma quiet_raise (e : exn) : quiet (@raise A e).
Proof. intros i. reflexivity. Qed.

Lemma quiet_emit (e : event) :
  match e with Input _ _ => False | _ => True end -> quiet (emit e).
Proof. intros H i. destruct e; try reflexivity. contradiction. Qed.

Lemma quiet_print (args : list obj) : quiet (print args).
Proof. intros i. reflexivity. Qed.

Lemma quiet_lift (x : exn + A) : quiet (lift x).
Proof. destruct x; intros i; reflexivity. Qed.

Lemma quiet_bind (m : M A) (k : A -> M B) :
  quiet m -> (forall a, quiet (k a)) -> quiet (bind m k).
Proof.
  intros Hm Hk i. unfold bind. destruct (outcome (m i)) as [a|e].
  - cbn [trace]. rewrite after_quit_app, Hm. apply Hk.
  - apply Hm.
Qed.

Lemma quiet_try_except_else (m : M A) (h : exn -> option (M B))
    (els : A -> M B) :
  quiet m -> (forall e k, h e = Some k -> quiet k) ->
  (forall a, quiet (els a)) ->
  quiet (try_except_else m h els).
Proof.
  intros Hm Hh He i. unfold try_except_else.
  destruct (outcome (m i)) as [a|e].
  - cbn [trace]. rewrite after_quit_app, Hm. apply He.
  - destruct (h e) as [k|] eqn:E.
    + cbn [trace]. rewrite after_quit_app, Hm. apply (Hh _ _ E).
    + apply Hm.
Qed.

Lemma quiet_try_finally (m : M A) (f : M unit) :
  quiet m -> quiet f -> quiet (try_finally m f).
Proof.
  intros Hm Hf i. unfold try_finally.
  destruct (outcome (f _)); cbn [trace]; rewrite after_quit_app, Hm; apply Hf.
Qed.

Lemma quiet_stopwatch (message : string) (m : M A) :
  quiet m -> quiet (stopwatch message m).
Proof. intros Hm. apply quiet_try_finally; [exact Hm|]. now apply quiet_emit. Qed.

Lemma quiet_quit_ok (m : M A) : quiet m -> quit_ok m.
Proof. intros Hm i post H. rewrite Hm in H. discriminate. Qed.

Lemma quit_ok_bind (m : M A) (k : A -> M B) :
  quit_ok m -> (forall a, quit_ok (k a)) -> quit_ok (bind m k).
Proof.
  intros Hm Hk i post. unfold bind.
  destruct (outcome (m i)) as [a|e] eqn:E.
  - cbn [trace outcome]. rewrite after_quit_app.
    destruct (after_quit (trace (m i))) as [p|] eqn:Q.
    + destruct (Hm i p Q) as [_ O]. congruence.
    + apply Hk.
  - cbn [trace outcome]. intros Q. destruct (Hm i post Q) as [-> O].
    split; [reflexivity | congruence].
Qed.

End QuitFacts.

Section QuitWalk.

Variable sep : ascii.
Variable nfc : string -> string.
Variable sha256 : list byte -> list byte.
Variable fs : string -> option FsNode.
Variable Dropbox_new : string -> Dropbox.

Lemma quiet_when (b : bool) (m : M unit) : quiet m -> quiet (when b m).
Proof. destruct b; [auto | intros _; apply quiet_ret]. Qed.

Lemma quit_ok_when (b : bool) (m : M unit) : quit_ok m -> quit_ok (when b m).
Proof. destruct b; [auto | intros _; apply quiet_quit_ok, quiet_ret]. Qed.

Lemma quit_ok_for_each {T} (xs : list T) (body : T -> M unit) :
  (forall x, quit_ok (body x)) -> quit_ok (for_each xs body).
Proof.
  intros H. induction xs as [|x xs IH]; cbn [for_each].
  - apply quiet_quit_ok, quiet_ret.
  - apply quit_ok_bind; auto.
Qed.

(** Steps that are sequences of quiet steps. *)
Ltac quiet_step :=
  first
    [ apply quiet_ret | apply quiet_raise | apply quiet_print
    | apply quiet_lift
    | apply quiet_emit; exact I
    | apply quiet_stopwatch
    | apply quiet_when
    | apply quiet_bind; [|intros ?]
    | match goal with
      | |- quiet (match ?x with _ => _ end) => destruct x
      end ].

Lemma quiet_getmtime (fn : string) (file : File) : quiet (getmtime fn file).
Proof. unfold getmtime. repeat quiet_step. Qed.

Lemma quiet_getsize (fn : string) (file : File) : quiet (getsize fn file).
Proof. unfold getsize. repeat quiet_step. Qed.

Lemma quiet_dropbox_hash (fn : string) (file : File) :
  quiet (dropbox_hash sha256 fn file).
Proof. unfold dropbox_hash. repeat quiet_step. Qed.

Lemma quiet_upload (dbx : Dropbox) (fullname : string) (file : File)
    (directory subdirectory name : string) (o : bool) :
  quiet (upload sep dbx fullname file directory subdirectory name o).
Proof.
  unfold upload. apply quiet_bind; [apply quiet_getmtime | intros mtime].
  repeat quiet_step.
  apply quiet_try_except_else; [repeat quiet_step | | intros; quiet_step].
  intros e k H. destruct e; try discriminate H. injection H as <-.
  repeat quiet_step.
Qed.

Lemma quiet_list_directory (dbx : Dropbox) (directory subdirectory : string) :
  quiet (list_directory sep dbx directory subdirectory).
Proof.
  unfold list_directory.
  apply quiet_try_except_else; [repeat quiet_step | | intros; quiet_step].
  intros e k H. destruct e; try discriminate H. injection H as <-.
  repeat quiet_step.
Qed.

Lemma quit_ok_yesno_loop (message : string) (default : bool) :
  quit_ok (yesno_loop message default).
Proof.
  intros i. induction i as [|line rest IH]; intros post H; [discriminate H|].
  cbn [yesno_loop] in *.
  assert (Q : is_quit_line line
              = is_in2 (PyStr.lower (PyStr.strip line)) "q" "quit")
    by reflexivity.
  destruct (String.eqb_spec (PyStr.lower (PyStr.strip line)) "") as [E0|_].
  { rewrite E0 in Q. cbn [trace after_quit] in H. rewrite Q in H.
    discriminate H. }
  destruct (is_in2 _ "y" "yes") eqn:Ey.
  { apply is_in2_true in Ey as [E|E]; rewrite E in Q;
      cbn [trace after_quit] in H; rewrite Q in H; discriminate H. }
  destruct (is_in2 _ "n" "no") eqn:En.
  { apply is_in2_true in En as [E|E]; rewrite E in Q;
      cbn [trace after_quit] in H; rewrite Q in H; discriminate H. }
  destruct (is_in2 _ "q" "quit") eqn:Eq.
  { cbn [trace after_quit outcome] in *. rewrite Q in H.
    injection H as <-. auto. }
  cbn [trace after_quit outcome] in *. rewrite Q in H.
  rewrite after_quit_app in H.
  destruct (is_in2 _ "p" "pdb"); cbn [after_quit] in H; apply IH, H.
Qed.

Lemma quit_ok_yesno (message : string) (default : bool) (args : Namespace) :
  quit_ok (yesno message default args).
Proof.
  unfold yesno.
  destruct (ns_default args); [apply quiet_quit_ok; repeat quiet_step|].
  destruct (ns_yes args); [apply quiet_quit_ok; repeat quiet_step|].
  destruct (ns_no args); [apply quiet_quit_ok; repeat quiet_step|].
  apply quit_ok_yesno_loop.
Qed.

(** Steps that are sequences of steps that end at a quit. *)
Ltac quit_step :=
  first
    [ apply quit_ok_yesno
    | apply quit_ok_when
    | apply quiet_quit_ok;
      solve [ apply quiet_upload | apply quiet_getmtime | apply quiet_getsize
            | apply quiet_dropbox_hash | apply quiet_list_directory ]
    | apply quit_ok_bind; [|intros ?]
    | match goal with
      | |- quit_ok (match ?x with _ => _ end) => destruct x
      end
    | apply quiet_quit_ok; solve [ repeat quiet_step ] ].

Lemma quit_ok_process_file (args : Namespace) (dbx : Dropbox)
    (directory subdirectory dn : string) (listing : gmap string Metadata)
    (name : string) (file : File) :
  quit_ok (process_file sep nfc sha256 args dbx directory subdirectory dn
             listing name file).
Proof.
  unfold process_file, get_client_modified, get_size, get_content_hash.
  repeat quit_step.
Qed.

Lemma quit_ok_keep_dir (args : Namespace) (name : string) :
  quit_ok (keep_dir args name).
Proof. unfold keep_dir. repeat quit_step. Qed.

Lemma quit_ok_filter_dirs (args : Namespace) (names : list string) :
  quit_ok (filter_dirs args names).
Proof.
  induction names as [|name names IH]; cbn [filter_dirs].
  - quit_step.
  - apply quit_ok_bind; [apply quit_ok_keep_dir | intros kept].
    apply quit_ok_bind; [exact IH | intros keep]. quit_step.
Qed.

Lemma quit_ok_visit (args : Namespace) (dbx : Dropbox)
    (directory subdirectory dn : string) (listing : gmap string Metadata)
    (files : list (string * File)) (names : list string) :
  quit_ok (visit sep nfc sha256 args dbx directory subdirectory dn listing
             files names).
Proof.
  unfold visit. apply quit_ok_bind; [quit_step | intros _].
  apply quit_ok_bind; [|intros _; apply quit_ok_filter_dirs].
  apply quit_ok_for_each. intros [name file].
  apply quit_ok_bind; [apply quit_ok_process_file | intros _; quit_step].
Qed.

(** Induction on a directory tree, with the property known for all the
    subdirectories. *)
Lemma Dir_tree_ind (P : Dir -> Prop) :
  (forall files dirs, Forall (fun p => P (snd p)) dirs -> P (MkDir files dirs)) ->
  forall d, P d.
Proof.
  intros H. fix IH 1. intros [files dirs]. apply H.
  induction dirs as [|[n sub] dirs IHd]; constructor; [apply IH | exact IHd].
Qed.

Lemma quit_ok_descend (rec : string -> Dir -> M unit) (dn : string)
    (keep : list string) (dirs : list (string * Dir)) :
  Forall (fun p => forall dn', quit_ok (rec dn' (snd p))) dirs ->
  quit_ok (descend sep rec dn keep dirs).
Proof.
  induction 1 as [|[n sub] dirs Hsub _ IH].
  - apply quiet_quit_ok, quiet_ret.
  - change (quit_ok (when (bool_decide (n ∈ keep))
                       (rec (Paths.path_join sep dn n) sub) ;;
                     descend sep rec dn keep dirs)).
    apply quit_ok_bind; [apply quit_ok_when, Hsub | intros _; exact IH].
Qed.

Lemma quit_ok_walk (args : Namespace) (dbx : Dropbox)
    (directory rootdir : string) (d : Dir) :
  forall dn, quit_ok (walk sep nfc sha256 args dbx directory rootdir dn d).
Proof.
  induction d as [files dirs IH] using Dir_tree_ind. intros dn.
  cbn [walk].
  apply quit_ok_bind; [apply quiet_quit_ok, quiet_list_directory | intros l].
  apply quit_ok_bind; [apply quit_ok_visit | intros keep].
  apply quit_ok_descend. exact IH.
Qed.

Lemma quit_ok_main_body (args : Namespace) (directory rootdir : string) :
  quit_ok (main_body sep nfc sha256 fs Dropbox_new args directory rootdir).
Proof.
  unfold main_body. repeat quit_step. apply quit_ok_walk.
Qed.

(** At the prompt, a quit line prints [Exit] and raises [SystemExit(0)]. *)
Lemma yesno_quit (message : string) (default : bool) (args : Namespace)
    (line : string) (rest : list string) :
  ns_default args = false -> ns_yes args = false -> ns_no args = false ->
  is_quit_line line = true ->
  yesno message default args (line :: rest)
  = Run [Input (message ++ (if default then "? [Y/n] " else "? [N/y] "))
               (Some line);
         Print [OStr "Exit"]]
        (Raise (SystemExit 0)) rest.
Proof.
  intros Hd Hy Hn Q. unfold yesno. rewrite Hd, Hy, Hn.
  unfold is_quit_line in Q. apply is_in2_true in Q.
  cbn [yesno_loop]. destruct Q as [-> | ->]; reflexivity.
Qed.

(** C5: with no flag set, a quit line at the prompt makes [yesno] print
    [Exit] and raise [SystemExit(0)] at once; and in a run of the program
    (from line 54 on), once a quit line has been read nothing follows but
    that [Exit] line: no file, no directory, no prompt, no remote call, and
    the program ends with status 0. *)
Theorem C5_quit_ends_program (args : Namespace) (directory rootdir : string)
    (stdin : list string) (post : list event)
    (message : string) (default : bool) (line : string) (rest : list string) :
  ns_default args = false -> ns_yes args = false -> ns_no args = false ->
  is_quit_line line = true ->
  after_quit
    (trace (main_body sep nfc sha256 fs Dropbox_new args directory rootdir stdin))
  = Some post ->
  yesno message default args (line :: rest)
  = Run [Input (message ++ (if default then "? [Y/n] " else "? [N/y] "))
               (Some line);
         Print [OStr "Exit"]]
        (Raise (SystemExit 0)) rest /\
  post = [Print [OStr "Exit"]] /\
  outcome (main_body sep nfc sha256 fs Dropbox_new args directory rootdir stdin)
  = Raise (SystemExit 0).
Proof.
  intros Hd Hy Hn Q H. split; [now apply yesno_quit|].
  now apply quit_ok_main_body.
Qed.

End QuitWalk.

Lemma C5_quit_ends_program_witness :
  yesno "Upload b.txt" true Example.interactive (" Quit " :: ["y"])
  = Run [Input "Upload b.txt? [Y/n] " (Some " Quit "); Print [OStr "Exit"]]
        (Raise (SystemExit 0)) ["y"] /\
  [Print [OStr "Exit"]] = [Print [OStr "Exit"]] /\
  outcome (main_body "/" (fun s => s) Example.sha Example.fs
             (fun _ => Example.dbx) Example.interactive
             "backup" "/home/u/src" [" Quit "; "y"])
  = Raise (SystemExit 0).
Proof.
  apply (C5_quit_ends_program "/" (fun s => s) Example.sha Example.fs
           (fun _ => Example.dbx) Example.interactive "backup" "/home/u/src"
           [" Quit "; "y"] [Print [OStr "Exit"]]
           "Upload b.txt" true " Quit " ["y"]);
    reflexivity.
Defined.

Lemma C3_content_hash_witness :
  dropbox_hash Example.sha "/home/u/src/a.txt"
    {| f_mtime := 3400000001 # 2; f_data := Example.hello |} ["y"]
    = Run [ReadFile "/home/u/src/a.txt"]
          (Ok (content_hash_spec Example.sha BLOCK_SIZE Example.hello)) ["y"] /\
  dropbox_hash_bytes Example.sha BLOCK_SIZE Example.hello
    = Some (content_hash_spec Example.sha BLOCK_SIZE Example.hello) /\
  hexdigest Example.sha
    (feed_chunks Example.sha BLOCK_SIZE
       [[Byte.x68]; [Byte.x65; Byte.x6c]; []; [Byte.x6c; Byte.x6f]])
    = content_hash_spec Example.sha BLOCK_SIZE Example.hello /\
  hexdigest Example.sha
    (feed_chunks Example.sha BLOCK_SIZE
       [[Byte.x68]; [Byte.x65; Byte.x6c]; []; [Byte.x6c; Byte.x6f]])
    = hexdigest Example.sha
        (feed_chunks Example.sha BLOCK_SIZE
           [[Byte.x68; Byte.x65; Byte.x6c; Byte.x6c]; [Byte.x6f]]).
Proof.
  apply (C3_content_hash Example.sha Example.hello
           [[Byte.x68]; [Byte.x65; Byte.x6c]; []; [Byte.x6c; Byte.x6f]]
           [[Byte.x68; Byte.x65; Byte.x6c; Byte.x6c]; [Byte.x6f]]
           "/home/u/src/a.txt" (3400000001 # 2) ["y"]);
    reflexivity.
Defined.

(** The cut into blocks and the two ways to the hash, on a small block
    size. *)
Example blocks_example :
  blocks 2 Example.hello
  = [[Byte.x68; Byte.x65]; [Byte.x6c; Byte.x6c]; [Byte.x6f]] /\
  dropbox_hash_bytes Example.sha 2 Example.hello
  = Some (content_hash_spec Example.sha 2 Example.hello).
Proof. split; reflexivity. Qed.

Example collapse_example : Paths.collapse "/a///b//c////" = "/a/b/c/".
Proof. reflexivity. Qed.

(** * Further properties *)

(** ** Remote paths *)

Section MorePathFacts.
Import PyStr Paths.

Lemma collapse_fixed (s : string) : contains "//" s = false -> collapse s = s.
Proof.
  intros H. unfold collapse. destruct (String.length s); cbn [collapse_loop];
    [reflexivity | now rewrite H].
Qed.

Lemma collapse_loop_length (fuel : nat) :
  forall s, (String.length (collapse_loop fuel s) <= String.length s)%nat.
Proof.
  induction fuel as [|fuel IH]; intros s; cbn [collapse_loop]; [lia|].
  destruct (contains "//" s); [|lia].
  pose proof (IH (replace_dslash s)). pose proof (replace_dslash_le s). lia.
Qed.

(** X1: the loop that collapses ['//'] ends with a path that has no
    ['//'] left and is no longer than the input, and running it again
    changes nothing. *)
Theorem collapse_normal_form (s : string) :
  contains "//" (collapse s) = false /\
  collapse (collapse s) = collapse s /\
  (String.length (collapse s) <= String.length s)%nat.
Proof.
  split; [apply collapse_no_dslash|]. split.
  - apply collapse_fixed, collapse_no_dslash.
  - apply collapse_loop_length.
Qed.

Lemma startswith_app (p a b : string) :
  startswith p a = true -> startswith p (String.append a b) = true.
Proof.
  revert a. induction p as [|c p IH]; intros a H; [reflexivity|].
  destruct a as [|d a]; [discriminate H|].
  cbn [startswith] in H. apply andb_true_iff in H as [H1 H2].
  change (startswith (String c p) (String d (String.append a b)) = true).
  cbn [startswith]. rewrite H1. cbn [andb]. now apply IH.
Qed.

Lemma contains_app_false (p a b : string) :
  contains p (String.append a b) = false -> contains p a = false.
Proof.
  induction a as [|c a IH]; intros H.
  - destruct p as [|d p]; [|reflexivity].
    destruct b; discriminate H.
  - change (contains p (String c (String.append a b)) = false) in H.
    rewrite contains_cons in H. apply orb_false_elim in H as [H1 H2].
    rewrite contains_cons. rewrite (IH H2), orb_false_r.
    destruct (startswith p (String c a)) eqn:E; [|reflexivity].
    apply (startswith_app _ _ b) in E.
    change (String.append (String c a) b) with (String c (String.append a b)) in E.
    congruence.
Qed.

(** [rstrip] cuts a tail off. *)
Lemma rstrip_char_prefix (c : ascii) (s : string) :
  exists t, s = String.append (rstrip_char c s) t.
Proof.
  induction s as [|d s [t IH]]; [exists ""; reflexivity|].
  cbn [rstrip_char]. destruct (rstrip_char c s) as [|e r] eqn:E.
  - destruct (Ascii.eqb d c).
    + exists (String d s). reflexivity.
    + exists t. change (s = t) in IH. now rewrite IH at 1.
  - exists t. change (String d s = String d (String.append (String e r) t)).
    now rewrite <- IH.
Qed.

Lemma rstrip_char_head (c d : ascii) (s : string) :
  rstrip_char c (String d s) = ""
  \/ exists r, rstrip_char c (String d s) = String d r.
Proof.
  cbn [rstrip_char]. destruct (rstrip_char c s).
  - destruct (Ascii.eqb d c); eauto.
  - eauto.
Qed.

Lemma squeeze_head (s : string) :
  exists r, squeeze (String "/" s) = String "/" r.
Proof. unfold squeeze. cbn [squeeze_from]. change (is_slash "/") with true. eauto. Qed.

(** X2: the path [list_directory] asks for has no ['//'] and no trailing
    ['/'], and is empty or begins with ['/']. *)
Theorem list_path_shape (sep : ascii) (directory subdirectory : string) :
  contains "//" (list_path sep directory subdirectory) = false /\
  last_char (list_path sep directory subdirectory) <> Some "/"%char /\
  (list_path sep directory subdirectory = ""
   \/ startswith "/" (list_path sep directory subdirectory) = true).
Proof.
  unfold list_path.
  set (p := collapse (raw_dir_path sep directory subdirectory)).
  split; [|split].
  - destruct (rstrip_char_prefix "/" p) as [t E].
    apply (contains_app_false _ _ t). rewrite <- E. apply collapse_no_dslash.
  - apply rstrip_char_last.
  - subst p. rewrite collapse_squeeze. unfold raw_dir_path.
    destruct (squeeze_head (String.append directory
                (String.append "/" (replace_char sep "/" subdirectory))))
      as [r E].
    change (squeeze (String "/" (String.append directory
              (String.append "/" (replace_char sep "/" subdirectory))))
            = String "/" r) in E.
    change (String.append "/" ?x) with (String "/" x).
    rewrite E. destruct (rstrip_char_head "/" "/" r) as [->|[r' ->]];
      [left; reflexivity | right; reflexivity].
Qed.

(** X3: the path [upload] and [download] send begins with ['/'] and has no
    ['//'], whatever the root, the subdirectory and the name. *)
Theorem upload_path_shape (sep : ascii) (directory subdirectory name : string) :
  startswith "/" (upload_path sep directory subdirectory name) = true /\
  contains "//" (upload_path sep directory subdirectory name) = false /\
  startswith "/" (download_path sep directory subdirectory name) = true /\
  contains "//" (download_path sep directory subdirectory name) = false.
Proof.
  assert (H : startswith "/" (upload_path sep directory subdirectory name) = true).
  { unfold upload_path. rewrite collapse_squeeze. unfold raw_file_path.
    change (String.append "/" ?x) with (String "/" x) at 1.
    destruct (squeeze_head (String.append directory
                (String.append "/"
                   (String.append (replace_char sep "/" subdirectory)
                      (String.append "/" name))))) as [r ->].
    reflexivity. }
  repeat split; try exact H; apply collapse_no_dslash.
Qed.

End MorePathFacts.

Section SubdirectoryFacts.
Import PyStr Paths.

Variable sep : ascii.

Lemma drop_length_app (a b : string) :
  drop (String.length a) (String.append a b) = b.
Proof. induction a as [|c a IH]; [destruct b; reflexivity | exact IH]. Qed.

Lemma lstrip_char_id (c : ascii) (s : string) :
  startswith (String c "") s = false -> lstrip_char c s = s.
Proof.
  destruct s as [|d s]; [reflexivity|]. cbn [startswith lstrip_char].
  rewrite andb_true_r. now intros ->.
Qed.

Lemma strip_char_id (c : ascii) (s : string) :
  startswith (String c "") s = false -> last_char s <> Some c ->
  strip_char c s = s.
Proof.
  intros H1 H2. unfold strip_char. rewrite lstrip_char_id by exact H1.
  now apply rstrip_char_id.
Qed.

(** X4: the subdirectory that goes into the remote path is empty for the
    root of the walk, and for the directory the walk reaches by joining a
    relative path [rel] to the root it is [rel] itself, whether or not the
    root ends with a separator. *)
Theorem subdirectory_of_joined (rootdir rel : string) :
  startswith (String sep "") rel = false ->
  last_char rel <> Some sep ->
  subdirectory_of sep rootdir rootdir = "" /\
  subdirectory_of sep rootdir (path_join sep rootdir rel) = rel.
Proof.
  intros H1 H2. unfold subdirectory_of. split.
  - replace (drop (String.length rootdir) rootdir) with "".
    + reflexivity.
    + symmetry. induction rootdir as [|c r IH]; [reflexivity | exact IH].
  - unfold path_join. destruct (last_char rootdir) as [c|] eqn:L.
    + destruct (Ascii.eqb c sep).
      * rewrite drop_length_app. now apply strip_char_id.
      * rewrite drop_length_app. unfold strip_char.
        cbn [lstrip_char]. rewrite Ascii.eqb_refl.
        rewrite lstrip_char_id by exact H1. now apply rstrip_char_id.
    + apply last_char_None in L. subst rootdir.
      change (drop (String.length "") rel) with rel.
      now apply strip_char_id.
Qed.

End SubdirectoryFacts.

Lemma subdirectory_of_joined_witness :
  subdirectory_of "/" "/home/u/src/" "/home/u/src/" = "" /\
  subdirectory_of "/" "/home/u/src/"
    (Paths.path_join "/" "/home/u/src/" "docs/img") = "docs/img".
Proof.
  apply (subdirectory_of_joined "/" "/home/u/src/" "docs/img");
    [reflexivity | discriminate].
Defined.

(** ** [yesno] at the prompt *)

Section PromptFacts.

Lemma answer_of_default (d1 d2 : bool) (line : string) :
  answer_of d1 line = None -> answer_of d2 line = None.
Proof.
  unfold answer_of.
  destruct (String.eqb _ ""); [discriminate|].
  destruct (is_in2 _ "y" "yes"); [discriminate|].
  destruct (is_in2 _ "n" "no"); [discriminate|]. reflexivity.
Qed.






End PromptFacts.



(** ** The command line, in full *)

Section ParseFacts.




End ParseFacts.

Section MainNeverStarts.

Variable sep : ascii.
Variable nfc : string -> string.
Variable sha256 : list byte -> list byte.
Variable fs : string -> option FsNode.
Variable expanduser : string -> string.
Variable Dropbox_new : string -> Dropbox.


End MainNeverStarts.

(** ** The remote calls *)

Section RemoteFacts.

Variable sep : ascii.

Lemma fold_insert_lookup (entries : list Metadata) :
  forall (m0 : gmap string Metadata) (n : string),
    fold_left (fun rv entry => <[md_name entry := entry]> rv) entries m0 !! n
    = match last (filter (fun e => md_name e = n) entries) with
      | Some e => Some e
      | None => m0 !! n
      end.
Proof.
  induction entries as [|e entries IH]; intros m0 n; [reflexivity|].
  cbn [fold_left]. rewrite IH.
  destruct (decide (md_name e = n)) as [E|N].
  - rewrite filter_cons_True by exact E. rewrite last_cons.
    destruct (last _); [reflexivity|]. subst n. apply lookup_insert_eq.
  - rewrite filter_cons_False by exact N.
    destruct (last _); [reflexivity|]. now apply lookup_insert_ne.
Qed.

Lemma list_directory_ok (dbx : Dropbox)
    (directory subdirectory : string) (entries : list Metadata)
    (stdin : list string) :
  files_list_directory dbx (Paths.list_path sep directory subdirectory)
  = inr entries ->
  list_directory sep dbx directory subdirectory stdin
  = Run [RemoteList (Paths.list_path sep directory subdirectory);
         Elapsed "list_directory"]
        (Ok (fold_left (fun rv entry => <[md_name entry := entry]> rv)
                       entries ∅)) stdin.
Proof.
  intros H. unfold list_directory.
  generalize dependent (Paths.list_path sep directory subdirectory).
  intros path H. unfold try_except_else, stopwatch, try_finally, bind.
  cbn [emit outcome trace stdin_left]. rewrite H. reflexivity.
Qed.

(** X9: when the listing call returns, [list_directory] returns the
    entries keyed by their names: a name maps to the last entry that
    carries it (an earlier entry of the same name is overwritten), a name
    that no entry carries is absent, and every entry found under a name has
    that name. *)
Theorem list_directory_mapping (dbx : Dropbox)
    (directory subdirectory : string) (entries : list Metadata)
    (stdin : list string) :
  files_list_directory dbx (Paths.list_path sep directory subdirectory)
  = inr entries ->
  exists m : gmap string Metadata,
    list_directory sep dbx directory subdirectory stdin
    = Run [RemoteList (Paths.list_path sep directory subdirectory);
           Elapsed "list_directory"] (Ok m) stdin /\
    (forall n, m !! n = last (filter (fun e => md_name e = n) entries)) /\
    (forall n md, m !! n = Some md -> md_name md = n).
Proof.
  intros H. eexists. split; [apply list_directory_ok; exact H|]. split.
  - intros n. rewrite fold_insert_lookup, lookup_empty.
    now destruct (last _).
  - intros n md. rewrite fold_insert_lookup, lookup_empty.
    destruct (last _) as [e|] eqn:L; [|discriminate].
    intros [= <-]. apply last_Some in L as [l' L].
    assert (I : e ∈ filter (fun e => md_name e = n) entries).
    { rewrite L. apply elem_of_app. right. apply list_elem_of_singleton.
      reflexivity. }
    now apply list_elem_of_filter in I as [I _].
Qed.

(** X10: whatever [list_directory] raises is what the listing call raised,
    and it is never an [ApiError]; by then the call and the stopwatch line
    are the only effects, and no input has been read. *)
Theorem list_directory_raises (dbx : Dropbox)
    (directory subdirectory : string) (stdin : list string) (e : exn) :
  outcome (list_directory sep dbx directory subdirectory stdin) = Raise e ->
  files_list_directory dbx (Paths.list_path sep directory subdirectory)
  = inl e /\
  (forall err, e <> ApiError err) /\
  list_directory sep dbx directory subdirectory stdin
  = Run [RemoteList (Paths.list_path sep directory subdirectory);
         Elapsed "list_directory"] (Raise e) stdin.
Proof.
  unfold list_directory.
  generalize (Paths.list_path sep directory subdirectory). intros path.
  unfold try_except_else, stopwatch, try_finally, bind.
  cbn [emit outcome trace stdin_left].
  destruct (files_list_directory dbx path) as [x|entries];
    [|discriminate].
  destruct x; cbn; intros [= <-]; repeat split; congruence.
Qed.

Lemma upload_cases (dbx : Dropbox) (fullname : string) (file : File)
    (directory subdirectory name : string) (overwrite_flag : bool)
    (stdin : list string) :
  let path := Paths.upload_path sep directory subdirectory name in
  let mode := if overwrite_flag then overwrite else add in
  let t := mtime_seconds (f_mtime file) in
  let call := [GetMtime fullname; ReadFile fullname;
               RemoteUpload (f_data file) path mode t] in
  let watch :=
    Elapsed ("upload " ++ pretty (length (f_data file)) ++ " bytes") in
  upload sep dbx fullname file directory subdirectory name overwrite_flag stdin
  = match files_upload dbx (f_data file) path mode t with
    | inr res =>
        Run (call ++ [watch; Print [OStr "uploaded as"; OStr (md_name res)]])
            (Ok (Some res)) stdin
    | inl (ApiError err) =>
        Run (call ++ [Print [OStr "*** API error"; OExn (ApiError err)]; watch])
            (Ok None) stdin
    | inl e => Run (call ++ [watch]) (Raise e) stdin
    end.
Proof.
  cbv zeta. unfold upload, getmtime.
  generalize (Paths.upload_path sep directory subdirectory name).
  generalize (String.append "upload "
                (String.append (pretty (length (f_data file))) " bytes")).
  intros msg path.
  unfold try_except_else, stopwatch, try_finally, bind.
  cbn [emit ret outcome trace stdin_left app].
  destruct (files_upload dbx _ _ _ _) as [x|res]; [destruct x|]; reflexivity.
Qed.

(** X11: [upload] makes one call, with the bytes of the file, the path of
    the file under the root, the mode asked for and the whole seconds of
    the local modification time.  A result is printed and returned; an
    [ApiError] is printed and turned into [None], so that the caller goes
    on; any other exception goes up.  The stopwatch line comes in all
    three cases. *)
Theorem upload_outcomes (dbx : Dropbox) (fullname : string) (file : File)
    (directory subdirectory name : string) (overwrite_flag : bool)
    (stdin : list string) :
  let path := Paths.upload_path sep directory subdirectory name in
  let mode := if overwrite_flag then overwrite else add in
  let t := mtime_seconds (f_mtime file) in
  let call := [GetMtime fullname; ReadFile fullname;
               RemoteUpload (f_data file) path mode t] in
  let watch :=
    Elapsed ("upload " ++ pretty (length (f_data file)) ++ " bytes") in
  upload sep dbx fullname file directory subdirectory name overwrite_flag stdin
  = match files_upload dbx (f_data file) path mode t with
    | inr res =>
        Run (call ++ [watch; Print [OStr "uploaded as"; OStr (md_name res)]])
            (Ok (Some res)) stdin
    | inl (ApiError err) =>
        Run (call ++ [Print [OStr "*** API error"; OExn (ApiError err)]; watch])
            (Ok None) stdin
    | inl e => Run (call ++ [watch]) (Raise e) stdin
    end.
Proof. apply upload_cases. Qed.

(** X12: [download] returns the bytes when the call returns, and [None]
    after printing when the call raises [HttpError]; any other exception,
    [ApiError] among them, goes up.  The stopwatch line comes in all
    cases. *)
Theorem download_outcomes (dbx : Dropbox)
    (directory subdirectory name : string) (stdin : list string) :
  let path := Paths.download_path sep directory subdirectory name in
  download sep dbx directory subdirectory name stdin
  = match files_download dbx path with
    | inr (md, data) =>
        Run [RemoteDownload path; Elapsed "download";
             Print [OInt (Z.of_nat (length data)); OStr "bytes; md:";
                    OStr (md_name md)]]
            (Ok (Some data)) stdin
    | inl (HttpError err) =>
        Run [RemoteDownload path;
             Print [OStr "*** HTTP error"; OExn (HttpError err)];
             Elapsed "download"]
            (Ok None) stdin
    | inl e => Run [RemoteDownload path; Elapsed "download"] (Raise e) stdin
    end.
Proof.
  cbv zeta. unfold download.
  generalize (Paths.download_path sep directory subdirectory name).
  intros path.
  unfold try_except_else, stopwatch, try_finally, bind.
  cbn [emit ret outcome trace stdin_left app].
  destruct (files_download dbx path) as [x|[md data]]; [destruct x|];
    reflexivity.
Qed.

End RemoteFacts.

Lemma list_directory_mapping_witness :
  exists m : gmap string Metadata,
    list_directory "/" Example.dbx "backup" "" ["y"]
    = Run [RemoteList (Paths.list_path "/" "backup" "");
           Elapsed "list_directory"] (Ok m) ["y"] /\
    (forall n, m !! n
               = last (filter (fun e => md_name e = n) Example.remote_entries)) /\
    (forall n md, m !! n = Some md -> md_name md = n).
Proof.
  apply (list_directory_mapping "/" Example.dbx "backup" ""
           Example.remote_entries ["y"]).
  reflexivity.
Defined.

Lemma list_directory_raises_witness :
  files_list_directory Example.dbx_http (Paths.list_path "/" "backup" "")
  = inl (HttpError "500") /\
  (forall err, HttpError "500" <> ApiError err) /\
  list_directory "/" Example.dbx_http "backup" "" ["y"]
  = Run [RemoteList (Paths.list_path "/" "backup" "");
         Elapsed "list_directory"] (Raise (HttpError "500")) ["y"].
Proof.
  apply (list_directory_raises "/" Example.dbx_http "backup" "" ["y"]
           (HttpError "500")).
  reflexivity.
Defined.

(** ** Triples for the pieces of the program *)

Section HoldsFacts.

Context {A B : Type}.
Variable Q : event -> Prop.
Variable E : exn -> Prop.

Lemma lines_read_app (t1 t2 : list event) :
  lines_read (t1 ++ t2) = lines_read t1 ++ lines_read t2.
Proof. apply omap_app. Qed.

Lemma holds_ret (R : A -> Prop) (a : A) : R a -> holds Q R E (ret a).
Proof. intros H i. cbn. auto. Qed.

Lemma holds_raise (R : A -> Prop) (e : exn) : E e -> holds Q R E (raise e).
Proof. intros H i. cbn. auto. Qed.

Lemma holds_weaken (R R' : A -> Prop) (m : M A) :
  holds Q R E m -> (forall a, R a -> R' a) -> holds Q R' E m.
Proof.
  intros H W i. destruct (H i) as (HQ & HR & HS). repeat split; try assumption.
  destruct (outcome (m i)); auto.
Qed.

Lemma holds_bind (R : A -> Prop) (R' : B -> Prop) (m : M A) (k : A -> M B) :
  holds Q R E m -> (forall a, R a -> holds Q R' E (k a)) ->
  holds Q R' E (bind m k).
Proof.
  intros Hm Hk i. destruct (Hm i) as (HQ & HR & HS). unfold bind.
  destruct (outcome (m i)) as [a|e].
  - destruct (Hk a HR (stdin_left (m i))) as (HQ' & HR' & HS').
    cbn [trace outcome stdin_left]. repeat split.
    + now apply Forall_app.
    + exact HR'.
    + rewrite lines_read_app, <- app_assoc, <- HS'. exact HS.
  - cbn [trace outcome stdin_left]. auto.
Qed.

Lemma holds_bind_raise (R' : B -> Prop) (e : exn) (k : A -> M B) :
  E e -> holds Q R' E (bind (raise e) k).
Proof. intros H i. cbn. auto. Qed.

Lemma holds_try_except_else (R0 : A -> Prop) (E0 : exn -> Prop)
    (R : B -> Prop) (m : M A) (h : exn -> option (M B)) (els : A -> M B) :
  holds Q R0 E0 m ->
  (forall e, E0 e ->
     match h e with Some k => holds Q R E k | None => E e end) ->
  (forall a, R0 a -> holds Q R E (els a)) ->
  holds Q R E (try_except_else m h els).
Proof.
  intros Hm Hh He i. destruct (Hm i) as (HQ & HR & HS).
  unfold try_except_else. destruct (outcome (m i)) as [a|e].
  - destruct (He a HR (stdin_left (m i))) as (HQ' & HR' & HS').
    cbn [trace outcome stdin_left]. repeat split.
    + now apply Forall_app.
    + exact HR'.
    + rewrite lines_read_app, <- app_assoc, <- HS'. exact HS.
  - specialize (Hh e HR). destruct (h e) as [k|].
    + destruct (Hh (stdin_left (m i))) as (HQ' & HR' & HS').
      cbn [trace outcome stdin_left]. repeat split.
      * now apply Forall_app.
      * exact HR'.
      * rewrite lines_read_app, <- app_assoc, <- HS'. exact HS.
    + cbn [trace outcome stdin_left]. auto.
Qed.

End HoldsFacts.

Section HoldsMore.

Variable Q : event -> Prop.
Variable E : exn -> Prop.

Lemma holds_emit (e : event) :
  Q e -> lines_read [e] = [] -> holds Q (fun _ => True) E (emit e).
Proof. intros H L i. cbn [emit trace outcome stdin_left]. rewrite L. auto. Qed.

Lemma holds_stopwatch {A} (R : A -> Prop) (message : string) (m : M A) :
  holds Q R E m -> Q (Elapsed message) -> holds Q R E (stopwatch message m).
Proof.
  intros Hm HQe i. destruct (Hm i) as (HQ & HR & HS).
  unfold stopwatch, try_finally. cbn [emit trace outcome stdin_left].
  repeat split.
  - apply Forall_app. auto.
  - exact HR.
  - rewrite lines_read_app. cbn. rewrite app_nil_r. exact HS.
Qed.

Lemma holds_lift {A} (R : A -> Prop) (x : exn + A) :
  (forall a, x = inr a -> R a) -> (forall e, x = inl e -> E e) ->
  holds Q R E (lift x).
Proof.
  intros HR HE. destruct x as [e|a]; [apply holds_raise | apply holds_ret]; auto.
Qed.

Lemma holds_when (b : bool) (m : M unit) :
  (b = true -> holds Q (fun _ => True) E m) ->
  holds Q (fun _ => True) E (when b m).
Proof. destruct b; [auto | intros _; now apply holds_ret]. Qed.

Lemma holds_for_each {T} (xs : list T) (body : T -> M unit) :
  (forall x, x ∈ xs -> holds Q (fun _ => True) E (body x)) ->
  holds Q (fun _ => True) E (for_each xs body).
Proof.
  induction xs as [|x xs IH]; intros H; cbn [for_each].
  - now apply holds_ret.
  - eapply holds_bind; [apply H; left | intros _ _; apply IH].
    intros y Hy. apply H. now right.
Qed.

(** The prompt loop: what it shows, what it raises, what it reads. *)
Lemma holds_yesno_loop (prompt : string) (default : bool) :
  (forall l, Q (Input prompt l)) -> (forall a, Q (Print a)) -> Q Debugger ->
  E EOFError -> E (SystemExit 0) ->
  holds Q (fun _ => True) E (yesno_loop prompt default).
Proof.
  intros QI QP QD EE EX i. induction i as [|line rest (HQ & HR & HS)].
  - cbn. auto.
  - cbn [yesno_loop].
    destruct (String.eqb _ ""); [cbn; auto|].
    destruct (is_in2 _ "y" "yes"); [cbn; auto|].
    destruct (is_in2 _ "n" "no"); [cbn; auto|].
    destruct (is_in2 _ "q" "quit"); [cbn; auto|].
    cbn [trace outcome stdin_left]. repeat split.
    + constructor; [apply QI|]. apply Forall_app. split.
      * destruct (is_in2 _ "p" "pdb"); auto.
      * constructor; auto.
    + exact HR.
    + change (line :: rest
              = line :: lines_read
                  ((if is_in2 (PyStr.lower (PyStr.strip line)) "p" "pdb"
                    then [Debugger] else [])
                   ++ Print [OStr "Please answer YES or NO."]
                      :: trace (yesno_loop prompt default rest))
                ++ stdin_left (yesno_loop prompt default rest)).
      f_equal. rewrite HS at 1. f_equal.
      destruct (is_in2 _ "p" "pdb"); reflexivity.
Qed.

(** [yesno] with whatever flags. *)
Lemma holds_yesno (message : string) (default : bool) (args : Namespace) :
  (forall p l, Q (Input p l)) -> (forall a, Q (Print a)) -> Q Debugger ->
  (forall m b, Q (Auto m b)) ->
  E EOFError -> E (SystemExit 0) ->
  holds Q (fun _ => True) E (yesno message default args).
Proof.
  intros QI QP QD QA EE EX. unfold yesno.
  destruct (ns_default args);
    [eapply holds_bind;
       [apply holds_emit; [apply QA | reflexivity]
       |intros _ _; now apply holds_ret]|].
  destruct (ns_yes args);
    [eapply holds_bind;
       [apply holds_emit; [apply QA | reflexivity]
       |intros _ _; now apply holds_ret]|].
  destruct (ns_no args);
    [eapply holds_bind;
       [apply holds_emit; [apply QA | reflexivity]
       |intros _ _; now apply holds_ret]|].
  now apply holds_yesno_loop.
Qed.

(** [yesno] with a flag set: the answer is forced, nothing is asked. *)
Lemma holds_yesno_forced (message : string) (default : bool)
    (args : Namespace) :
  ns_default args || ns_yes args || ns_no args = true ->
  (forall m b, Q (Auto m b)) ->
  holds Q (fun b => b = if ns_default args then default
                        else if ns_yes args then true else false)
        E (yesno message default args).
Proof.
  intros F QA. unfold yesno.
  destruct (ns_default args);
    [eapply holds_bind;
       [apply holds_emit; [apply QA | reflexivity]
       |intros _ _; now apply holds_ret]|].
  destruct (ns_yes args);
    [eapply holds_bind;
       [apply holds_emit; [apply QA | reflexivity]
       |intros _ _; now apply holds_ret]|].
  destruct (ns_no args); [|discriminate F].
  eapply holds_bind;
    [apply holds_emit; [apply QA | reflexivity]
    |intros _ _; now apply holds_ret].
Qed.

End HoldsMore.

Section HoldsEngine.

Variable sep : ascii.
Variable nfc : string -> string.
Variable sha256 : list byte -> list byte.

Variable Q : event -> Prop.
Variable E : exn -> Prop.

Hypothesis Q_print : forall a, Q (Print a).
Hypothesis Q_elapsed : forall m, Q (Elapsed m).
Hypothesis Q_getmtime : forall f, Q (GetMtime f).
Hypothesis Q_getsize : forall f, Q (GetSize f).
Hypothesis Q_readfile : forall f, Q (ReadFile f).
Hypothesis Q_list : forall p, Q (RemoteList p).

Variable args : Namespace.
Variable dbx : Dropbox.

(** What is known of the answers of [yesno], by the default of the
    question. *)
Variable Ans : bool -> bool -> Prop.
Hypothesis H_yesno :
  forall message default, holds Q (Ans default) E (yesno message default args).

Lemma holds_upload (fullname : string) (file : File)
    (directory subdirectory name : string) (o : bool) :
  Q (RemoteUpload (f_data file)
       (Paths.upload_path sep directory subdirectory name)
       (if o then overwrite else add) (mtime_seconds (f_mtime file))) ->
  (forall e,
     files_upload dbx (f_data file)
       (Paths.upload_path sep directory subdirectory name)
       (if o then overwrite else add) (mtime_seconds (f_mtime file)) = inl e ->
     (forall err, e <> ApiError err) -> E e) ->
  holds Q (fun _ => True) E
    (upload sep dbx fullname file directory subdirectory name o).
Proof.
  intros QU EU i. rewrite upload_cases. cbv zeta.
  destruct (files_upload dbx _ _ _ _) as [e|res] eqn:F.
  - destruct e; cbn [trace outcome stdin_left];
      (split; [repeat constructor; auto | split; [|reflexivity]]);
      try exact I; apply (EU _ eq_refl); discriminate.
  - cbn [trace outcome stdin_left].
    split; [repeat constructor; auto | split; [exact I | reflexivity]].
Qed.

Lemma holds_list_directory (directory subdirectory : string) :
  (forall path e, files_list_directory dbx path = inl e ->
                  (forall err, e <> ApiError err) -> E e) ->
  holds Q (fun m : gmap string Metadata =>
             forall n md, m !! n = Some md -> listed dbx md)
        E (list_directory sep dbx directory subdirectory).
Proof.
  intros EL i.
  destruct (files_list_directory dbx
              (Paths.list_path sep directory subdirectory))
    as [e|entries] eqn:F.
  - unfold list_directory, try_except_else, stopwatch, try_finally, bind.
    cbn [emit outcome trace stdin_left]. rewrite F.
    destruct e; cbn;
      (split; [repeat constructor; auto | split; [|reflexivity]]);
      try (intros n md; rewrite lookup_empty; discriminate);
      apply (EL _ _ F); discriminate.
  - rewrite (list_directory_ok _ _ _ _ entries) by exact F.
    cbn [trace outcome stdin_left].
    split; [repeat constructor; auto | split; [|reflexivity]].
    intros n md. rewrite fold_insert_lookup, lookup_empty.
    destruct (last _) as [x|] eqn:L; [|discriminate]. intros [= <-].
    apply last_Some in L as [l' L].
    assert (I : x ∈ filter (fun e => md_name e = n) entries).
    { rewrite L. apply elem_of_app. right. now apply list_elem_of_singleton. }
    apply list_elem_of_filter in I as [_ I].
    exists (Paths.list_path sep directory subdirectory), entries. auto.
Qed.

Lemma holds_bind_ret {A B} (R' : B -> Prop) (a : A) (k : A -> M B) :
  holds Q R' E (k a) -> holds Q R' E (bind (ret a) k).
Proof.
  intros H. apply (holds_bind Q E (fun x => x = a)); [now apply holds_ret|].
  now intros x ->.
Qed.

Lemma holds_getmtime (fn : string) (file : File) :
  holds Q (fun _ => True) E (getmtime fn file).
Proof.
  unfold getmtime. eapply holds_bind;
    [apply holds_emit; [apply Q_getmtime | reflexivity]
    |intros _ _; now apply holds_ret].
Qed.

Lemma holds_getsize (fn : string) (file : File) :
  holds Q (fun _ => True) E (getsize fn file).
Proof.
  unfold getsize. eapply holds_bind;
    [apply holds_emit; [apply Q_getsize | reflexivity]
    |intros _ _; now apply holds_ret].
Qed.

Lemma holds_dropbox_hash (fn : string) (file : File) :
  holds Q (fun _ => True) E (dropbox_hash sha256 fn file).
Proof.
  unfold dropbox_hash. eapply holds_bind;
    [apply holds_emit; [apply Q_readfile | reflexivity]
    |intros _ _; now apply holds_ret].
Qed.

(** One step of a proof of a triple, by the shape of the program. *)
Ltac hstep :=
  lazymatch goal with
  | |- holds _ _ _ (ret _) => apply holds_ret; exact I
  | |- holds _ _ _ (raise _) => apply holds_raise
  | |- holds _ _ _ (bind (raise _) _) => apply holds_bind_raise
  | |- holds _ _ _ (bind (ret _) _) => apply holds_bind_ret
  | |- holds _ _ _ (getmtime _ _) => apply holds_getmtime
  | |- holds _ _ _ (getsize _ _) => apply holds_getsize
  | |- holds _ _ _ (dropbox_hash _ _ _) => apply holds_dropbox_hash
  | |- holds _ _ _ (print _) => apply holds_emit; [apply Q_print | reflexivity]
  | |- holds _ _ _ (emit _) =>
      apply holds_emit; [auto | reflexivity]
  | |- holds _ _ _ (when _ _) => apply holds_when; intros ?
  | |- holds _ _ _ (yesno _ _ _) => apply H_yesno
  | |- holds _ _ _ (bind _ _) => eapply holds_bind; [|intros ? ?]
  | |- holds _ _ _ (if ?b then _ else _) => destruct b eqn:?
  | |- holds _ _ _ (match ?x with _ => _ end) => destruct x eqn:?
  end.

Lemma holds_process_file (directory subdirectory dn : string)
    (listing : gmap string Metadata) (name : string) (file : File) :
  (Ans true true -> listing !! nfc name = None ->
   holds Q (fun _ => True) E
     (upload sep dbx (Paths.path_join sep dn name) file
             directory subdirectory name false)) ->
  (Ans false true -> is_Some (listing !! nfc name) ->
   holds Q (fun _ => True) E
     (upload sep dbx (Paths.path_join sep dn name) file
             directory subdirectory name true)) ->
  ((exists r, listing !! nfc name = Some (DirectoryMetadata r)) ->
   E (AttributeError "DirectoryMetadata" "client_modified")) ->
  holds Q (fun _ => True) E
    (process_file sep nfc sha256 args dbx directory subdirectory dn
                  listing name file).
Proof.
  intros UA UO EA. unfold process_file.
  destruct (PyStr.startswith "." name); [repeat hstep|].
  destruct (_ || _); [repeat hstep|].
  destruct (_ || _); [repeat hstep|].
  destruct (listing !! nfc name) as [md|] eqn:L.
  - destruct md as [rn sz cm ch|rn]; cbn [stats_match is_FileMetadata negb
      get_client_modified get_size get_content_hash].
    + repeat hstep.
      apply UO; [|eauto]. now subst.
    + repeat hstep. apply EA. eauto.
  - repeat hstep. apply UA; [|reflexivity]. now subst.
Qed.

Lemma holds_keep_dir (name : string) :
  holds Q (fun _ => True) E (keep_dir args name).
Proof. unfold keep_dir. repeat hstep. Qed.

Lemma holds_filter_dirs (names : list string) :
  holds Q (fun _ => True) E (filter_dirs args names).
Proof.
  induction names as [|name names IH]; cbn [filter_dirs]; [hstep|].
  eapply holds_bind; [apply holds_keep_dir | intros kept _].
  eapply holds_bind; [apply IH | intros keep _]. hstep.
Qed.

Hypothesis H_add :
  Ans true true ->
  forall fullname file directory subdirectory name,
    holds Q (fun _ => True) E
      (upload sep dbx fullname file directory subdirectory name false).
Hypothesis H_over :
  Ans false true ->
  forall fullname file directory subdirectory name,
    holds Q (fun _ => True) E
      (upload sep dbx fullname file directory subdirectory name true).
Hypothesis H_attr :
  (exists r, listed dbx (DirectoryMetadata r)) ->
  E (AttributeError "DirectoryMetadata" "client_modified").
Hypothesis H_list :
  forall path e, files_list_directory dbx path = inl e ->
                 (forall err, e <> ApiError err) -> E e.

Lemma holds_visit (directory subdirectory dn : string)
    (listing : gmap string Metadata) (files : list (string * File))
    (names : list string) :
  (forall n md, listing !! n = Some md -> listed dbx md) ->
  holds Q (fun _ => True) E
    (visit sep nfc sha256 args dbx directory subdirectory dn listing
           files names).
Proof.
  intros HL. unfold visit.
  eapply holds_bind; [hstep | intros _ _].
  eapply holds_bind; [|intros _ _; apply holds_filter_dirs].
  apply holds_for_each. intros [name file] _.
  eapply holds_bind; [|intros _ _; hstep].
  apply holds_process_file.
  - intros A _. now apply H_add.
  - intros A _. now apply H_over.
  - intros [r L]. apply H_attr. exists r. eapply HL, L.
Qed.

Lemma holds_descend (rec : string -> Dir -> M unit) (dn : string)
    (keep : list string) (dirs : list (string * Dir)) :
  Forall (fun p => forall dn', holds Q (fun _ => True) E (rec dn' (snd p)))
         dirs ->
  holds Q (fun _ => True) E (descend sep rec dn keep dirs).
Proof.
  induction 1 as [|[n sub] dirs Hsub _ IH].
  - now apply holds_ret.
  - change (holds Q (fun _ => True) E
              (when (bool_decide (n ∈ keep))
                    (rec (Paths.path_join sep dn n) sub) ;;
               descend sep rec dn keep dirs)).
    eapply holds_bind; [apply holds_when; intros _; apply Hsub
                       |intros _ _; exact IH].
Qed.

Lemma holds_walk (directory rootdir : string) (d : Dir) :
  forall dn,
    holds Q (fun _ => True) E
      (walk sep nfc sha256 args dbx directory rootdir dn d).
Proof.
  induction d as [files dirs IH] using Dir_tree_ind. intros dn.
  cbn [walk].
  eapply holds_bind; [apply holds_list_directory, H_list | intros l Hl].
  eapply holds_bind; [apply holds_visit, Hl | intros keep _].
  apply holds_descend. exact IH.
Qed.

End HoldsEngine.

(** ** The program from line 54 on, as a whole *)

(** Side conditions that hold by computation. *)
Ltac trivial_q := intros; first [exact I | reflexivity].

Section MainBodyFacts.

Variable sep : ascii.
Variable nfc : string -> string.
Variable sha256 : list byte -> list byte.
Variable fs : string -> option FsNode.
Variable Dropbox_new : string -> Dropbox.

Local Abbreviation main_body' := (main_body sep nfc sha256 fs Dropbox_new).

Lemma holds_main_body (Q : event -> Prop) (E : exn -> Prop)
    (args : Namespace) (Ans : bool -> bool -> Prop)
    (directory rootdir : string) :
  let dbx := Dropbox_new (ns_token args) in
  (forall a, Q (Print a)) -> (forall m, Q (Elapsed m)) ->
  (forall f, Q (GetMtime f)) -> (forall f, Q (GetSize f)) ->
  (forall f, Q (ReadFile f)) -> (forall p, Q (RemoteList p)) ->
  (forall t, Q (Connect t)) ->
  (forall message default,
     holds Q (Ans default) E (yesno message default args)) ->
  (Ans true true ->
   forall fullname file directory subdirectory name,
     holds Q (fun _ => True) E
       (upload sep dbx fullname file directory subdirectory name false)) ->
  (Ans false true ->
   forall fullname file directory subdirectory name,
     holds Q (fun _ => True) E
       (upload sep dbx fullname file directory subdirectory name true)) ->
  ((exists r, listed dbx (DirectoryMetadata r)) ->
   E (AttributeError "DirectoryMetadata" "client_modified")) ->
  (forall path e, files_list_directory dbx path = inl e ->
                  (forall err, e <> ApiError err) -> E e) ->
  ((forall d, fs rootdir <> Some (FsDir d)) -> E (SystemExit 1)) ->
  holds Q (fun _ => True) E (main_body' args directory rootdir).
Proof.
  intros dbx QP QE QM QS QR QL QC HY HA HO HAt HL HX. unfold main_body.
  eapply holds_bind; [apply holds_emit; [apply QP | reflexivity] | intros _ _].
  eapply holds_bind; [apply holds_emit; [apply QP | reflexivity] | intros _ _].
  destruct (fs rootdir) as [[f|d]|] eqn:F.
  - eapply holds_bind;
      [apply holds_emit; [apply QP | reflexivity] | intros _ _].
    apply holds_raise, HX. congruence.
  - eapply holds_bind;
      [apply holds_emit; [apply QC | reflexivity] | intros _ _].
    now apply (holds_walk sep nfc sha256 Q E QP QE QM QS QR QL args dbx Ans).
  - eapply holds_bind;
      [apply holds_emit; [apply QP | reflexivity] | intros _ _].
    apply holds_raise, HX. congruence.
Qed.

Lemma lines_read_no_input (t : list event) :
  Forall (fun e => is_input e = false) t -> lines_read t = [].
Proof.
  induction 1 as [|e t He _ IH]; [reflexivity|].
  destruct e; try discriminate He; exact IH.
Qed.



(** X15: with any of the three flags set, the program (from line 54 on)
    never prompts and leaves the standard input untouched. *)
Theorem main_body_forced_no_prompt (args : Namespace)
    (directory rootdir : string) (stdin : list string) :
  ns_default args || ns_yes args || ns_no args = true ->
  Forall (fun e => is_input e = false)
         (trace (main_body' args directory rootdir stdin)) /\
  stdin_left (main_body' args directory rootdir stdin) = stdin.
Proof.
  intros F.
  assert (H : holds (fun e => is_input e = false) (fun _ => True)
                (fun _ => True) (main_body' args directory rootdir)).
  { apply (holds_main_body _ _ _ (fun _ _ => True));
      try (intros; exact I); try (intros; reflexivity).
    - intros. eapply holds_weaken;
        [apply holds_yesno_forced; [exact F | intros; reflexivity]
        |intros; exact I].
    - intros _ fn file d s n. apply holds_upload; trivial_q.
    - intros _ fn file d s n. apply holds_upload; trivial_q. }
  destruct (H stdin) as (HQ & _ & HS). split; [exact HQ|].
  rewrite (lines_read_no_input _ HQ) in HS. now symmetry.
Qed.

(** X16: with [--no] (and neither [--default] nor [--yes]) the program
    uploads nothing. *)
Theorem main_body_no_uploads_nothing (args : Namespace)
    (directory rootdir : string) (stdin : list string) :
  ns_default args = false -> ns_yes args = false -> ns_no args = true ->
  Forall (fun e => is_upload e = false)
         (trace (main_body' args directory rootdir stdin)).
Proof.
  intros Fd Fy Fn.
  assert (H : holds (fun e => is_upload e = false) (fun _ => True)
                (fun _ => True) (main_body' args directory rootdir)).
  { apply (holds_main_body _ _ _ (fun _ b => b = false));
      try (intros; exact I); try (intros; reflexivity);
      try (intros A; discriminate A).
    intros m d. eapply holds_weaken;
      [apply holds_yesno_forced;
         [rewrite Fd, Fy, Fn; reflexivity | intros; reflexivity]
      |cbv beta; rewrite Fd, Fy; trivial]. }
  destruct (H stdin) as (HQ & _ & _). exact HQ.
Qed.

(** X17: with [--default] the program never uploads in overwrite mode:
    new files are added (the default of that question is yes), changed
    files are left alone (the default of that question is no). *)
Theorem main_body_default_never_overwrites (args : Namespace)
    (directory rootdir : string) (stdin : list string) :
  ns_default args = true ->
  Forall (fun e => is_overwrite e = false)
         (trace (main_body' args directory rootdir stdin)).
Proof.
  intros Fd.
  assert (H : holds (fun e => is_overwrite e = false) (fun _ => True)
                (fun _ => True) (main_body' args directory rootdir)).
  { apply (holds_main_body _ _ _ (fun d b => b = d));
      try (intros; exact I); try (intros; reflexivity);
      try (intros A; discriminate A).
    - intros m d. eapply holds_weaken;
        [apply holds_yesno_forced;
           [rewrite Fd; reflexivity | intros; reflexivity]
        |cbv beta; rewrite Fd; trivial].
    - intros _ fn file d s n. apply holds_upload; trivial_q. }
  destruct (H stdin) as (HQ & _ & _). exact HQ.
Qed.


End MainBodyFacts.


Lemma main_body_forced_no_prompt_witness :
  Forall (fun e => is_input e = false)
    (trace (main_body "/" (fun s => s) Example.sha Example.fs
              (fun _ => Example.dbx) Example2.yes_only
              "backup" "/home/u/src" ["y"; "quit"])) /\
  stdin_left (main_body "/" (fun s => s) Example.sha Example.fs
                (fun _ => Example.dbx) Example2.yes_only
                "backup" "/home/u/src" ["y"; "quit"])
  = ["y"; "quit"].
Proof.
  apply (main_body_forced_no_prompt "/" (fun s => s) Example.sha Example.fs
           (fun _ => Example.dbx) Example2.yes_only
           "backup" "/home/u/src" ["y"; "quit"]).
  reflexivity.
Defined.

Lemma main_body_no_uploads_nothing_witness :
  Forall (fun e => is_upload e = false)
    (trace (main_body "/" (fun s => s) Example.sha Example.fs
              (fun _ => Example.dbx) Example2.no_only
              "backup" "/home/u/src" [])).
Proof.
  apply (main_body_no_uploads_nothing "/" (fun s => s) Example.sha Example.fs
           (fun _ => Example.dbx) Example2.no_only "backup" "/home/u/src" []);
    reflexivity.
Defined.

Lemma main_body_default_never_overwrites_witness :
  Forall (fun e => is_overwrite e = false)
    (trace (main_body "/" (fun s => s) Example.sha Example.fs
              (fun _ => Example.dbx) Example2.default_only
              "backup" "/home/u/src" [])).
Proof.
  apply (main_body_default_never_overwrites "/" (fun s => s) Example.sha
           Example.fs (fun _ => Example.dbx) Example2.default_only
           "backup" "/home/u/src" []);
    reflexivity.
Defined.


(** ** One file, and the directories *)

Section FileFacts.

Variable sep : ascii.
Variable nfc : string -> string.
Variable sha256 : list byte -> list byte.

(** X19: whatever [process_file] uploads for a file is that file: its
    bytes, to its own path under the root, with the whole seconds of its
    modification time; and the mode is overwrite exactly when the
    NFC-normalized name is in the listing, add when it is not. *)
Theorem process_file_uploads_its_file (args : Namespace) (dbx : Dropbox)
    (directory subdirectory dn : string) (listing : gmap string Metadata)
    (name : string) (file : File) (stdin : list string) :
  Forall
    (fun e =>
       match e with
       | RemoteUpload data path mode t =>
           data = f_data file /\
           path = Paths.upload_path sep directory subdirectory name /\
           t = mtime_seconds (f_mtime file) /\
           mode = match listing !! nfc name with
                  | Some _ => overwrite
                  | None => add
                  end
       | _ => True
       end)
    (trace (process_file sep nfc sha256 args dbx directory subdirectory dn
              listing name file stdin)).
Proof.
  apply (holds_process_file sep nfc sha256 _ (fun _ => True))
    with (Ans := fun _ _ => True); try trivial_q.
  - intros. apply holds_yesno; trivial_q.
  - intros _ L. apply holds_upload; try trivial_q. now rewrite L.
  - intros _ [md L]. apply holds_upload; try trivial_q. now rewrite L.
Qed.

Lemma keep_dir_forced (args : Namespace) (name : string) (i : list string) :
  ns_default args || ns_yes args || ns_no args = true ->
  outcome (keep_dir args name i)
  = Ok ((ns_default args || ns_yes args)
        && bool_decide (pruning_spec true name = None)) /\
  stdin_left (keep_dir args name i) = i.
Proof.
  intros F. unfold keep_dir, pruning_spec.
  destruct (PyStr.startswith "." name);
    [rewrite andb_false_r; split; reflexivity|].
  destruct (_ || PyStr.endswith "~" name);
    [rewrite andb_false_r; split; reflexivity|].
  destruct (String.eqb name "__pycache__");
    [rewrite andb_false_r; split; reflexivity|].
  unfold yesno.
  destruct (ns_default args), (ns_yes args), (ns_no args);
    try discriminate F; split; reflexivity.
Qed.

Lemma filter_dirs_forced_run (args : Namespace) (names : list string) :
  ns_default args || ns_yes args || ns_no args = true ->
  forall i,
    outcome (filter_dirs args names i)
    = Ok (if ns_default args || ns_yes args
          then filter (fun n => pruning_spec true n = None) names
          else []) /\
    stdin_left (filter_dirs args names i) = i.
Proof.
  intros F. induction names as [|name names IH]; intros i.
  - split; [|reflexivity].
    destruct (ns_default args || ns_yes args); reflexivity.
  - cbn [filter_dirs]. destruct (keep_dir_forced args name i F) as [K S].
    rewrite (bind_ok _ _ _ _ K). cbn [outcome stdin_left]. rewrite S.
    destruct (IH i) as [K' S'].
    rewrite (bind_ok _ _ _ _ K'). cbn [outcome stdin_left ret]. rewrite S'.
    split; [|reflexivity]. f_equal.
    destruct (ns_default args || ns_yes args); cbn [andb]; [|reflexivity].
    destruct (decide (pruning_spec true name = None)) as [P|P].
    + rewrite filter_cons_True by exact P.
      now rewrite (bool_decide_eq_true_2 _ P).
    + rewrite filter_cons_False by exact P.
      now rewrite (bool_decide_eq_false_2 _ P).
Qed.

(** X20: with a flag set, the directories kept for the walk are decided
    without reading any input: with [--default] or [--yes] they are the
    names that no pruning rule matches, in their order; with [--no] alone
    there are none. *)
Theorem filter_dirs_forced (args : Namespace) (names : list string)
    (stdin : list string) :
  ns_default args || ns_yes args || ns_no args = true ->
  outcome (filter_dirs args names stdin)
  = Ok (if ns_default args || ns_yes args
        then filter (fun n => pruning_spec true n = None) names
        else []) /\
  stdin_left (filter_dirs args names stdin) = stdin.
Proof. intros F. now apply filter_dirs_forced_run. Qed.

Lemma descend_nil (rec : string -> Dir -> M unit) (dn : string)
    (dirs : list (string * Dir)) (i : list string) :
  descend sep rec dn [] dirs i = Run [] (Ok tt) i.
Proof.
  induction dirs as [|[n sub] dirs IH]; [reflexivity|].
  change (descend sep rec dn [] ((n, sub) :: dirs) i)
    with ((when (bool_decide (n ∈ [])) (rec (Paths.path_join sep dn n) sub) ;;
           descend sep rec dn [] dirs) i).
  rewrite bool_decide_eq_false_2 by apply not_elem_of_nil.
  cbn [when]. rewrite bind_ret. exact IH.
Qed.

(** X21: with [--no] alone the walk stays in the root: it lists the root
    once, goes through its files and the names of its subdirectories, and
    what is under the subdirectories makes no difference to the run. *)
Theorem walk_no_stays_in_root (args : Namespace) (dbx : Dropbox)
    (directory rootdir dn : string) (files : list (string * File))
    (dirs dirs' : list (string * Dir)) (stdin : list string) :
  ns_default args = false -> ns_yes args = false -> ns_no args = true ->
  map fst dirs = map fst dirs' ->
  walk sep nfc sha256 args dbx directory rootdir dn (MkDir files dirs) stdin
  = walk sep nfc sha256 args dbx directory rootdir dn (MkDir files dirs') stdin
  /\
  walk sep nfc sha256 args dbx directory rootdir dn (MkDir files dirs) stdin
  = (listing <- list_directory sep dbx directory
                  (subdirectory_of sep rootdir dn) ;;
     visit sep nfc sha256 args dbx directory
           (subdirectory_of sep rootdir dn) dn listing files (map fst dirs) ;;
     ret tt) stdin.
Proof.
  intros Fd Fy Fn M.
  assert (K : forall l i keep (ds : list (string * Dir)),
            outcome (visit sep nfc sha256 args dbx directory
                       (subdirectory_of sep rootdir dn) dn l files
                       (map fst ds) i) = Ok keep -> keep = []).
  { intros l i keep ds. unfold visit. rewrite bind_outcome.
    destruct (outcome (print _ i)); [|discriminate].
    rewrite bind_outcome.
    destruct (outcome (for_each _ _ _)); [|discriminate].
    destruct (filter_dirs_forced_run args (map fst ds)) with (i := stdin_left
      (for_each files
         (fun '(name, file) =>
            process_file sep nfc sha256 args dbx directory
              (subdirectory_of sep rootdir dn) dn l name file ;; ret tt)
         (stdin_left (print [OStr "Descending into";
                             OStr (subdirectory_of sep rootdir dn);
                             OStr "..."] i)))) as [O _];
      [rewrite Fd, Fy, Fn; reflexivity|].
    rewrite O, Fd, Fy. now intros [= <-]. }
  split.
  - cbn [walk]. rewrite <- M.
    apply bind_congr. intros l _. apply bind_congr. intros keep O.
    apply K in O. subst keep. now rewrite !descend_nil.
  - cbn [walk].
    apply bind_congr. intros l _. apply bind_congr. intros keep O.
    apply K in O. subst keep. now rewrite descend_nil.
Qed.

End FileFacts.

Lemma filter_dirs_forced_witness :
  outcome (filter_dirs Example2.yes_only [".git"; "docs"; "__pycache__"; "img"]
             ["n"])
  = Ok (if ns_default Example2.yes_only || ns_yes Example2.yes_only
        then filter (fun n => pruning_spec true n = None)
                    [".git"; "docs"; "__pycache__"; "img"]
        else []) /\
  stdin_left (filter_dirs Example2.yes_only
                [".git"; "docs"; "__pycache__"; "img"] ["n"])
  = ["n"].
Proof.
  apply (filter_dirs_forced Example2.yes_only
           [".git"; "docs"; "__pycache__"; "img"] ["n"]).
  reflexivity.
Defined.

Lemma walk_no_stays_in_root_witness :
  walk "/" (fun s => s) Example.sha Example2.no_only Example.dbx
    "backup" "/home/u/src" "/home/u/src"
    (MkDir [("a.txt", Example.file_a)]
           [("sub", MkDir [("c.txt", Example.file_a)] [])]) []
  = walk "/" (fun s => s) Example.sha Example2.no_only Example.dbx
      "backup" "/home/u/src" "/home/u/src"
      (MkDir [("a.txt", Example.file_a)] [("sub", MkDir [] [])]) []
  /\
  walk "/" (fun s => s) Example.sha Example2.no_only Example.dbx
    "backup" "/home/u/src" "/home/u/src"
    (MkDir [("a.txt", Example.file_a)]
           [("sub", MkDir [("c.txt", Example.file_a)] [])]) []
  = (listing <- list_directory "/" Example.dbx "backup"
                  (subdirectory_of "/" "/home/u/src" "/home/u/src") ;;
     visit "/" (fun s => s) Example.sha Example2.no_only Example.dbx "backup"
           (subdirectory_of "/" "/home/u/src" "/home/u/src") "/home/u/src"
           listing [("a.txt", Example.file_a)]
           (map fst [("sub", MkDir [("c.txt", Example.file_a)] [])]) ;;
     ret tt) [].
Proof.
  apply (walk_no_stays_in_root "/" (fun s => s) Example.sha Example2.no_only
           Example.dbx "backup" "/home/u/src" "/home/u/src"
           [("a.txt", Example.file_a)]
           [("sub", MkDir [("c.txt", Example.file_a)] [])]
           [("sub", MkDir [] [])] []);
    reflexivity.
Defined.

Section StartFacts.

Variable sep : ascii.
Variable nfc : string -> string.
Variable sha256 : list byte -> list byte.
Variable fs : string -> option FsNode.
Variable Dropbox_new : string -> Dropbox.

Lemma subdirectory_of_root (rootdir : string) :
  subdirectory_of sep rootdir rootdir = "".
Proof.
  unfold subdirectory_of.
  replace (PyStr.drop (String.length rootdir) rootdir) with "";
    [reflexivity|].
  symmetry. induction rootdir as [|c r IH]; [reflexivity | exact IH].
Qed.

Lemma bind_trace_prefix {A B} (m : M A) (k : A -> M B) (i : list string) :
  exists t, trace (bind m k i) = trace (m i) ++ t.
Proof.
  unfold bind. destruct (outcome (m i)); cbn [trace]; eauto.
  exists []. now rewrite app_nil_r.
Qed.

Lemma list_directory_first (dbx : Dropbox) (directory subdirectory : string)
    (i : list string) :
  exists t,
    trace (list_directory sep dbx directory subdirectory i)
    = RemoteList (Paths.list_path sep directory subdirectory) :: t.
Proof.
  unfold list_directory, try_except_else, stopwatch, try_finally, bind.
  cbn [emit outcome trace stdin_left].
  destruct (files_list_directory dbx _) as [e|entries]; [destruct e|];
    cbn; eauto.
Qed.

(** X22: when the source is a directory, the program (from line 54 on)
    prints its two lines, builds the client from the token, and its first
    remote call lists the destination root: the path is the root with
    ['/'] in front, nothing of the local path in it. *)
Theorem main_body_starts (args : Namespace) (directory rootdir : string)
    (d : Dir) (stdin : list string) :
  fs rootdir = Some (FsDir d) ->
  exists rest,
    trace (main_body sep nfc sha256 fs Dropbox_new args directory rootdir stdin)
    = [Print [OStr "Dropbox directory name:"; OStr directory];
       Print [OStr "Local directory:"; OStr rootdir];
       Connect (ns_token args);
       RemoteList (Paths.list_path sep directory "")] ++ rest.
Proof.
  intros F. unfold main_body. rewrite F.
  destruct d as [files dirs]. cbn [walk]. rewrite subdirectory_of_root.
  match goal with
  | |- context [bind (list_directory ?s ?x ?dr ?sb) ?k] =>
      destruct (bind_trace_prefix (list_directory s x dr sb) k stdin)
        as [t1 T1];
      destruct (list_directory_first x dr sb stdin) as [t2 T2];
      rewrite T2 in T1
  end.
  unfold bind at 1 2 3. cbn [print emit outcome trace stdin_left app].
  rewrite T1. eauto.
Qed.

End StartFacts.

Lemma main_body_starts_witness :
  exists rest,
    trace (main_body "/" (fun s => s) Example.sha Example.fs
             (fun _ => Example.dbx) Example.interactive
             "backup" "/home/u/src" [])
    = [Print [OStr "Dropbox directory name:"; OStr "backup"];
       Print [OStr "Local directory:"; OStr "/home/u/src"];
       Connect (ns_token Example.interactive);
       RemoteList (Paths.list_path "/" "backup" "")] ++ rest.
Proof.
  apply (main_body_starts "/" (fun s => s) Example.sha Example.fs
           (fun _ => Example.dbx) Example.interactive
           "backup" "/home/u/src" Example.tree []).
  reflexivity.
Defined.
